(** * Post-scaffolding helper of the Quasar starter kit ([src/utils/index.js])

    A shallow embedding of [sortDependencies], [installDependencies],
    [runLintFix], [lintMsg], [installMsg], [printMessage], [runCommand],
    [sortObject] and the exported [complete], together with the part of the
    JavaScript object model these functions rely on: truthiness, strict
    equality on strings, own-property enumeration order and property
    assignment on ordinary objects.

    The program is written in a small monad over a world made of the file
    system and the trace of what the program did (lines printed, files
    written, commands spawned).  What Node.js provides ([process.cwd],
    [path.join], [JSON.parse], [JSON.stringify], [child_process.spawn]) is
    a parameter of the program, the class [Host]; the theorems hold for
    every host, and a small concrete host runs the program on examples. *)

From Stdlib Require Import List String Ascii ZArith NArith Bool Lia.
From Stdlib Require Import Sorted Permutation Orders Mergesort.
From Stdlib Require Import DecimalString Decimal.
Import ListNotations.

Set Implicit Arguments.
Set Warnings "-register-all".
Local Open Scope list_scope.
Local Open Scope string_scope.

(** ** Characters that cannot be written inside a string literal *)

Definition nl : string := String (ascii_of_nat 10) EmptyString.
Definition dquote_char : ascii := ascii_of_nat 34.
Definition dquote : string := String dquote_char EmptyString.
Definition backslash_char : ascii := ascii_of_nat 92.
Definition backslash : string := String backslash_char EmptyString.

(** ** JavaScript values

    The values the program handles are the ones [JSON.parse] and the
    questionnaire produce.  Numbers are the integer ones; a character of a
    string stands for one code unit; an object is the list of its own
    enumerable properties in the order [Object.keys] reports them. *)

Inductive value : Type :=
| VUndefined
| VNull
| VBool (b : bool)
| VNum (n : Z)
| VStr (s : string)
| VArr (elems : list value)
| VObj (props : list (string * value)).

Definition props : Type := list (string * value).

(** What a [throw] or a rejected promise carries: an [Error] object, or any
    other value ([reject(code)] rejects with a number). *)
Inductive exn : Type :=
| Error (name : string) (message : string)
| ThrownValue (v : value).

Inductive result (A : Type) : Type :=
| Ok (a : A)
| Throw (e : exn).
Arguments Ok {A} a.
Arguments Throw {A} e.

Definition rbind {A B} (r : result A) (k : A -> result B) : result B :=
  match r with
  | Ok a => k a
  | Throw e => Throw e
  end.

(** ToBoolean *)
Definition truthy (v : value) : bool :=
  match v with
  | VUndefined | VNull => false
  | VBool b => b
  | VNum n => negb (n =? 0)%Z
  | VStr s => negb (s =? EmptyString)
  | VArr _ | VObj _ => true
  end.

(** [a === s] for a string [s] *)
Definition strict_eq_str (a : value) (s : string) : bool :=
  match a with
  | VStr t => t =? s
  | _ => false
  end.

(** [arr.indexOf(x) !== -1] for an array of strings *)
Definition indexOf_found (arr : list string) (x : value) : bool :=
  existsb (strict_eq_str x) arr.

Definition string_of_nat (i : nat) : string :=
  NilZero.string_of_uint (Nat.to_uint i).

Definition string_of_Z (z : Z) : string :=
  NilZero.string_of_int (Z.to_int z).

(** ToString, as a template literal applies it. *)
Fixpoint to_string (v : value) : string :=
  match v with
  | VUndefined => "undefined"
  | VNull => "null"
  | VBool true => "true"
  | VBool false => "false"
  | VNum n => string_of_Z n
  | VStr s => s
  | VArr l =>
      let elem x :=
        match x with
        | VUndefined | VNull => EmptyString
        | _ => to_string x
        end in
      String.concat "," (map elem l)
  | VObj _ => "[object Object]"
  end.

(** ** Own properties and their order

    An array index is a canonical numeric string below 2^32 - 1.  The own
    keys of an ordinary object are listed with the array indices first, in
    ascending numeric order, and then the other strings in the order in
    which the properties were created. *)

Definition array_index (k : string) : option N :=
  match NilEmpty.uint_of_string k with
  | Some u =>
      let n := N.of_uint u in
      if (NilZero.string_of_uint (N.to_uint n) =? k) && (n <? 4294967295)%N
      then Some n
      else None
  | None => None
  end.

Fixpoint lookup (k : string) (o : props) : option value :=
  match o with
  | [] => None
  | (k', v) :: o' => if k' =? k then Some v else lookup k o'
  end.

Definition has_own (o : props) (k : string) : bool :=
  match lookup k o with
  | Some _ => true
  | None => false
  end.

Fixpoint update (k : string) (v : value) (o : props) : props :=
  match o with
  | [] => []
  | (k', v') :: o' =>
      if k' =? k then (k', v) :: o' else (k', v') :: update k v o'
  end.

Fixpoint add_index (n : N) (k : string) (v : value) (o : props) : props :=
  match o with
  | [] => [(k, v)]
  | (k', v') :: o' =>
      match array_index k' with
      | Some n' =>
          if (n' <? n)%N then (k', v') :: add_index n k v o'
          else (k, v) :: o
      | None => (k, v) :: o
      end
  end.

Definition add_property (k : string) (v : value) (o : props) : props :=
  match array_index k with
  | Some n => add_index n k v o
  | None => (o ++ [(k, v)])%list
  end.

(** CreateDataProperty on an ordinary object. *)
Definition define_property (o : props) (k : string) (v : value) : props :=
  if has_own o k then update k v o else add_property k v o.

(** [o[k] = v] on an ordinary object whose prototype chain ends in
    [Object.prototype]: an own property is overwritten in place; a new key
    creates a property, except ["__proto__"], which reaches the accessor of
    [Object.prototype] and leaves the own properties as they are. *)
Definition obj_set (o : props) (k : string) (v : value) : props :=
  if has_own o k then update k v o
  else if k =? "__proto__" then o
  else add_property k v o.

Fixpoint indices_from (i n : nat) : list string :=
  match n with
  | O => []
  | S n' => string_of_nat i :: indices_from (S i) n'
  end.

(** [Object.keys(x)] *)
Definition Object_keys (x : value) : result (list string) :=
  match x with
  | VUndefined | VNull =>
      Throw (Error "TypeError" "Cannot convert undefined or null to object")
  | VBool _ | VNum _ => Ok []
  | VStr s => Ok (indices_from 0 (String.length s))
  | VArr l => Ok (indices_from 0 (List.length l))
  | VObj o => Ok (map fst o)
  end.

(** [x[k]] on a value that is neither [undefined] nor [null], for the keys
    the program reads: own properties (and the indices of strings and
    arrays). *)
Definition prop (x : value) (k : string) : value :=
  match x with
  | VObj o =>
      match lookup k o with
      | Some v => v
      | None => VUndefined
      end
  | VArr l =>
      match array_index k with
      | Some n => nth (N.to_nat n) l VUndefined
      | None => VUndefined
      end
  | VStr s =>
      match array_index k with
      | Some n =>
          match String.get (N.to_nat n) s with
          | Some c => VStr (String c EmptyString)
          | None => VUndefined
          end
      | None => VUndefined
      end
  | _ => VUndefined
  end.

(** [x.k], which throws on [undefined] and [null]. *)
Definition get_prop (x : value) (k : string) : result value :=
  match x with
  | VUndefined | VNull =>
      Throw (Error "TypeError" ("Cannot read properties of " ++ to_string x))
  | _ => Ok (prop x k)
  end.

(** [x.k = v]; only an object keeps the property. *)
Definition set_prop (x : value) (k : string) (v : value) : value :=
  match x with
  | VObj o => VObj (obj_set o k v)
  | _ => x
  end.

(** ** [Array.prototype.sort] without a comparator, on strings

    The default order compares the strings code unit by code unit; for
    strings every correct sorting algorithm gives the same array. *)

Module StringOrder <: TotalLeBool.
Definition t := string.
Definition leb := String.leb.
Definition leb_total : forall x y, leb x y = true \/ leb y x = true :=
  String.leb_total.
End StringOrder.

Module StringSort := Sort StringOrder.

Definition array_sort (l : list string) : list string := StringSort.sort l.

(** ** [sortObject] (index.js, lines 174-183) *)

Definition sortObject (object : value) : result value :=
  rbind (Object_keys object) (fun keys =>
    Ok (VObj (fold_left
                (fun sortedObject item => obj_set sortedObject item (prop object item))
                (array_sort keys)
                []))).

(** ** The host: console, file system, child processes

    What the program does to its surroundings is recorded as a trace of
    events, in order.  The file system maps a path to the contents of the
    file there. *)

Inductive logarg : Type :=
| LStr (s : string)
| LExn (e : exn).

Inductive event : Type :=
| ConsoleLog (args : list logarg)
| WriteFile (path content : string)
| SpawnCall (cmd : value) (args : list string) (options : props).

Definition fs : Type := string -> option string.

Record world : Type := mkWorld {
  files : fs;
  trace : list event
}.

(** How a run of a piece of code ends: it returns, it throws (an [async]
    function rejects), the process is ended by [process.exit], or an awaited
    promise never settles. *)
Inductive outcome (A : Type) : Type :=
| Returned (a : A)
| Thrown (e : exn)
| Exited (status : Z)
| Pending.
Arguments Returned {A} a.
Arguments Thrown {A} e.
Arguments Exited {A} status.
Arguments Pending {A}.

Definition M (A : Type) : Type := world -> outcome A * world.

Definition ret {A} (a : A) : M A := fun w => (Returned a, w).

Definition bind {A B} (m : M A) (k : A -> M B) : M B :=
  fun w =>
    match m w with
    | (Returned a, w') => k a w'
    | (Thrown e, w') => (Thrown e, w')
    | (Exited s, w') => (Exited s, w')
    | (Pending, w') => (Pending, w')
    end.

Definition lift {A} (r : result A) : M A :=
  fun w =>
    match r with
    | Ok a => (Returned a, w)
    | Throw e => (Thrown e, w)
    end.

(** [try { body } catch (e) { handler }] *)
Definition try_catch {A} (body : M A) (handler : exn -> M A) : M A :=
  fun w =>
    match body w with
    | (Thrown e, w') => handler e w'
    | r => r
    end.

Declare Scope js_scope.
Delimit Scope js_scope with js.
Notation "x <- c ;; k" := (bind c (fun x => k))
  (at level 61, c at next level, right associativity) : js_scope.
Notation "c ;;; k" := (bind c (fun _ => k))
  (at level 61, right associativity) : js_scope.
Local Open Scope js_scope.

Definition emit (e : event) : M unit :=
  fun w => (Returned tt, mkWorld (files w) (trace w ++ [e])%list).

Definition console_log (args : list logarg) : M unit :=
  emit (ConsoleLog args).

Definition process_exit (status : Z) : M unit :=
  fun w => (Exited status, w).

Definition readFileSync (path : string) : M string :=
  fun w =>
    match files w path with
    | Some content => (Returned content, w)
    | None =>
        (Thrown (Error "Error" ("ENOENT: no such file or directory, open " ++ path)), w)
    end.

Definition fs_write (path content : string) (f : fs) : fs :=
  fun p => if p =? path then Some content else f p.

Definition writeFileSync (path content : string) : M unit :=
  fun w =>
    (Returned tt,
     mkWorld (fs_write path content (files w))
             (trace w ++ [WriteFile path content])%list).

(** How a spawned child ends, as the parent sees it: [spawn] itself throws,
    the ['exit'] event arrives with a code ([None] is the [null] of a child
    ended by a signal), or no ['exit'] event ever arrives. *)
Inductive child : Type :=
| SpawnThrows (e : exn)
| ExitEvent (code : option Z)
| NoExitEvent.

Definition code_value (code : option Z) : value :=
  match code with
  | Some z => VNum z
  | None => VNull
  end.

(** The three colour helpers of [chalk] the program uses. *)
Record chalk : Type := mkChalk {
  green : string -> string;
  yellow : string -> string;
  red : string -> string
}.

(** The Node.js runtime around the program. *)
Class Host : Type := mkHost {
  process_cwd : string;
  path_join : list string -> string;
  JSON_parse : string -> result value;
  JSON_stringify2 : value -> string;
  spawn : value -> list string -> props -> child
}.

(** [path.join] refuses arguments that are not strings. *)
Fixpoint strings_of (l : list value) : result (list string) :=
  match l with
  | [] => Ok []
  | VStr s :: l' => rbind (strings_of l') (fun r => Ok (s :: r))
  | _ :: _ =>
      Throw (Error "TypeError" "The path argument must be of type string")
  end.

Definition lintStyles : list string := ["prettier"; "standard"; "airbnb"].

(** [Object.assign(target, source)] *)
Definition Object_assign (target source : props) : props :=
  fold_left (fun o kv => obj_set o (fst kv) (snd kv)) source target.

Section Program.

Context {host : Host}.

Definition path_join_values (segments : list value) : result string :=
  rbind (strings_of segments) (fun l => Ok (path_join l)).

(** index.js, lines 12-14 *)
Definition starredLog (color : string -> string) (message : string) : M unit :=
  console_log [LStr (nl ++ nl ++ " " ++ color ("[*] " ++ message) ++ nl ++ nl)].

(** [data.inPlace ? '' : data.destDirName] *)
Definition target_dir (data : value) : result value :=
  rbind (get_prop data "inPlace") (fun inPlace =>
    if truthy inPlace then Ok (VStr EmptyString)
    else get_prop data "destDirName").

(** One of the two [if (pkg.field) { sorted = true; pkg.field = ... }]
    blocks, on the pair of the local variables [sorted] and [pkg]. *)
Definition sort_field (field : string) (st : bool * value) : result (bool * value) :=
  let '(sorted, pkg) := st in
  rbind (get_prop pkg field) (fun deps =>
    if truthy deps
    then rbind (sortObject deps) (fun o => Ok (true, set_prop pkg field o))
    else Ok (sorted, pkg)).

(** index.js, lines 21-41 *)
Definition sortDependencies (data : value) : M unit :=
  dir <- lift (target_dir data) ;;
  pkgFile <- lift (path_join_values [dir; VStr "package.json"]) ;;
  content <- readFileSync pkgFile ;;
  pkg <- lift (JSON_parse content) ;;
  st <- lift (sort_field "dependencies" (false, pkg)) ;;
  st <- lift (sort_field "devDependencies" st) ;;
  let '(sorted, pkg) := st in
  if sorted
  then writeFileSync pkgFile (JSON_stringify2 pkg ++ nl)
  else ret tt.

(** The options [runCommand] hands to [spawn]. *)
Definition spawn_options (options : props) : props :=
  Object_assign
    [("cwd", VStr process_cwd); ("stdio", VStr "inherit"); ("shell", VBool true)]
    options.

(** index.js, lines 148-172 *)
Definition runCommand (cmd : value) (args : list string) (options : props) : M unit :=
  let options := spawn_options options in
  emit (SpawnCall cmd args options) ;;;
  fun w =>
    match spawn cmd args options with
    | SpawnThrows e => (Thrown e, w)
    | ExitEvent code =>
        if truthy (code_value code)
        then (Thrown (ThrownValue (code_value code)), w)
        else (Returned tt, w)
    | NoExitEvent => (Pending, w)
    end.

(** index.js, lines 48-60 *)
Definition installDependencies (cwd : string) (executable : value)
    (color : string -> string) : M unit :=
  let executable :=
    match executable with
    | VUndefined => VStr "npm"
    | _ => executable
    end in
  starredLog color "Installing project dependencies..." ;;;
  try_catch
    (runCommand executable ["install"] [("cwd", VStr cwd)])
    (fun _ =>
       console_log [] ;;;
       console_log [LStr (" " ++ to_string executable ++
                          " install FAILED... Possible temporary npm registry issues?")] ;;;
       console_log [LStr " Please try again later..."] ;;;
       console_log [] ;;;
       process_exit 1).

(** [data.preset.lint && lintStyles.indexOf(data.lintConfig) !== -1] *)
Definition lint_fix_wanted (data : value) : result bool :=
  rbind (get_prop data "preset") (fun preset =>
  rbind (get_prop preset "lint") (fun lint =>
    if truthy lint
    then rbind (get_prop data "lintConfig") (fun lintConfig =>
           Ok (indexOf_found lintStyles lintConfig))
    else Ok false)).

Definition lint_fix_args (autoInstall : value) : list string :=
  if strict_eq_str autoInstall "npm"
  then ["run"; "lint"; "--"; "--fix"]
  else ["run"; "lint"; "--fix"].

(** index.js, lines 67-84 *)
Definition runLintFix (cwd : string) (data : value) (color : string -> string) : M unit :=
  wanted <- lift (lint_fix_wanted data) ;;
  if wanted : bool then
    starredLog color "Running eslint --fix to comply with chosen preset rules..." ;;;
    autoInstall <- lift (get_prop data "autoInstall") ;;
    let args := lint_fix_args autoInstall in
    try_catch
      (runCommand autoInstall args [("cwd", VStr cwd)])
      (fun _ =>
         console_log [] ;;;
         console_log [LStr (" " ++ to_string autoInstall ++ " lint FAILED...")] ;;;
         console_log [LStr " Please try again later..."] ;;;
         console_log [])
  else ret tt.

Definition lint_reminder : string :=
  "npm run lint -- --fix (or for yarn: yarn run lint --fix)" ++ nl ++ "  ".

(** index.js, lines 91-97 *)
Definition lintMsg (data : value) : result string :=
  rbind (get_prop data "autoInstall") (fun autoInstall =>
    if negb (truthy autoInstall) then
      rbind (get_prop data "lint") (fun lint =>
        if truthy lint then
          rbind (get_prop data "lintConfig") (fun lintConfig =>
            if indexOf_found lintStyles lintConfig
            then Ok lint_reminder
            else Ok EmptyString)
        else Ok EmptyString)
    else Ok EmptyString).

Definition install_reminder : string :=
  "npm install (or if using yarn: yarn)" ++ nl ++ "  ".

(** index.js, lines 136-138 *)
Definition installMsg (data : value) : result string :=
  rbind (get_prop data "autoInstall") (fun autoInstall =>
    if negb (truthy autoInstall) then Ok install_reminder else Ok EmptyString).

Definition closing_text : string :=
  nl ++ nl ++ "Documentation can be found at: https://quasar.dev" ++ nl ++ nl ++
  "Quasar is relying on donations to evolve. We'd be very grateful if you can" ++ nl ++
  "read our manifest on " ++ dquote ++ "Why donations are important" ++ dquote ++
  ": https://quasar.dev/why-donate" ++ nl ++
  "Donation campaign: https://donate.quasar.dev" ++ nl ++
  "Any amount is very welcomed." ++ nl ++
  "If invoices are required, please first contact razvan@quasar.dev" ++ nl ++ nl ++
  "Please give us a star on Github if you appreciate our work:" ++ nl ++
  "https://github.com/quasarframework/quasar" ++ nl ++ nl ++
  "Enjoy! - Quasar Team" ++ nl.

(** The text [printMessage] builds (index.js, lines 104-127). *)
Definition final_message (data : value) (c : chalk) : result string :=
  rbind (get_prop data "inPlace") (fun inPlace =>
  rbind (if truthy inPlace then Ok EmptyString
         else rbind (get_prop data "destDirName") (fun d =>
                Ok ("cd " ++ to_string d ++ nl ++ "  "))) (fun cd =>
  rbind (installMsg data) (fun im =>
  rbind (lintMsg data) (fun lm =>
    Ok (nl ++ " " ++ green c "[*] Quasar Project initialization finished!" ++ nl ++ nl ++
        "To get started:" ++ nl ++ nl ++ "  " ++
        yellow c (cd ++ im ++ lm ++ "quasar dev") ++
        closing_text))))).

(** index.js, lines 103-129 *)
Definition printMessage (data : value) (c : chalk) : M unit :=
  message <- lift (final_message data c) ;;
  console_log [LStr message].

(** [path.join(process.cwd(), data.inPlace ? '' : data.destDirName)] *)
Definition project_dir (data : value) : result string :=
  rbind (target_dir data) (fun dir => path_join_values [VStr process_cwd; dir]).

(** index.js, lines 185-202 *)
Definition complete (data : value) (c : chalk) : M unit :=
  sortDependencies data ;;;
  cwd <- lift (project_dir data) ;;
  try_catch
    (autoInstall <- lift (get_prop data "autoInstall") ;;
     if truthy autoInstall then
       installDependencies cwd autoInstall (green c) ;;;
       runLintFix cwd data (green c)
     else ret tt)
    (fun e => console_log [LStr (red c "Error:"); LExn e]) ;;;
  printMessage data c.

End Program.

(** ** A concrete runtime, to run the program on examples

    [JSON_read] reads the JSON texts made of objects, arrays, strings with
    the two-character escapes, integers and the three literals, and throws
    on anything else; [JSON_print] is [JSON.stringify(v, null, 2)].  The
    path join glues the non-empty segments with a slash. *)

Module Node.

Definition is_ws (c : ascii) : bool :=
  let n := nat_of_ascii c in
  (n =? 32)%nat || (n =? 10)%nat || (n =? 13)%nat || (n =? 9)%nat.

Fixpoint skip_ws (s : list ascii) : list ascii :=
  match s with
  | c :: s' => if is_ws c then skip_ws s' else s
  | [] => []
  end.

Definition is_digit (c : ascii) : bool :=
  let n := nat_of_ascii c in (48 <=? n)%nat && (n <=? 57)%nat.

Fixpoint read_digits (s : list ascii) (acc : Z) : Z * list ascii :=
  match s with
  | c :: s' =>
      if is_digit c
      then read_digits s' (10 * acc + Z.of_nat (nat_of_ascii c - 48))%Z
      else (acc, s)
  | [] => (acc, [])
  end.

(** A number without fraction or exponent and without a leading zero. *)
Definition read_number (s : list ascii) : option (Z * list ascii) :=
  let '(neg, s1) :=
    match s with
    | "-"%char :: s' => (true, s')
    | _ => (false, s)
    end in
  match s1 with
  | c :: s2 =>
      if is_digit c then
        let '(n, rest) := read_digits s1 0%Z in
        let leading_zero :=
          (nat_of_ascii c =? 48)%nat &&
          match s2 with
          | d :: _ => is_digit d
          | [] => false
          end in
        let more :=
          match rest with
          | "."%char :: _ | "e"%char :: _ | "E"%char :: _ => true
          | _ => false
          end in
        if leading_zero || more then None
        else Some (if neg then (- n)%Z else n, rest)
      else None
  | [] => None
  end.

Definition unescape (c : ascii) : option ascii :=
  if Ascii.eqb c dquote_char then Some dquote_char
  else if Ascii.eqb c backslash_char then Some backslash_char
  else
    match c with
    | "/"%char => Some "/"%char
    | "b"%char => Some (ascii_of_nat 8)
    | "f"%char => Some (ascii_of_nat 12)
    | "n"%char => Some (ascii_of_nat 10)
    | "r"%char => Some (ascii_of_nat 13)
    | "t"%char => Some (ascii_of_nat 9)
    | _ => None
    end.

(** The characters of a string literal, after its opening quote. *)
Fixpoint read_chars (s : list ascii) : option (string * list ascii) :=
  match s with
  | [] => None
  | c :: s' =>
      if Ascii.eqb c dquote_char then Some (EmptyString, s')
      else if Ascii.eqb c backslash_char then
        match s' with
        | e :: s'' =>
            match unescape e, read_chars s'' with
            | Some c', Some (str, rest) => Some (String c' str, rest)
            | _, _ => None
            end
        | [] => None
        end
      else if (nat_of_ascii c <? 32)%nat then None
      else
        match read_chars s' with
        | Some (str, rest) => Some (String c str, rest)
        | None => None
        end
  end.

Definition expect (lit : string) (v : value) (s : list ascii) : option (value * list ascii) :=
  let l := list_ascii_of_string lit in
  if list_eq_dec Ascii.ascii_dec (firstn (List.length l) s) l
  then Some (v, skipn (List.length l) s)
  else None.

Fixpoint read_value (fuel : nat) (s : list ascii) : option (value * list ascii) :=
  match fuel with
  | O => None
  | S fuel' =>
      let read_elems :=
        fix elems (n : nat) (acc : list value) (s : list ascii) :=
          match n with
          | O => None
          | S n' =>
              match read_value fuel' s with
              | Some (v, rest) =>
                  match skip_ws rest with
                  | ","%char :: rest' => elems n' (acc ++ [v])%list rest'
                  | "]"%char :: rest' => Some (VArr (acc ++ [v])%list, rest')
                  | _ => None
                  end
              | None => None
              end
          end in
      let read_members :=
        fix members (n : nat) (acc : props) (s : list ascii) :=
          match n with
          | O => None
          | S n' =>
              match skip_ws s with
              | q :: s1 =>
                  if Ascii.eqb q dquote_char then
                    match read_chars s1 with
                    | Some (k, s2) =>
                        match skip_ws s2 with
                        | ":"%char :: s3 =>
                            match read_value fuel' s3 with
                            | Some (v, rest) =>
                                let acc' := define_property acc k v in
                                match skip_ws rest with
                                | ","%char :: rest' => members n' acc' rest'
                                | "}"%char :: rest' => Some (VObj acc', rest')
                                | _ => None
                                end
                            | None => None
                            end
                        | _ => None
                        end
                    | None => None
                    end
                  else None
              | [] => None
              end
          end in
      match skip_ws s with
      | [] => None
      | c :: s' =>
          if Ascii.eqb c dquote_char then
            match read_chars s' with
            | Some (str, rest) => Some (VStr str, rest)
            | None => None
            end
          else if Ascii.eqb c "["%char then
            match skip_ws s' with
            | "]"%char :: rest => Some (VArr [], rest)
            | _ => read_elems (List.length s') [] s'
            end
          else if Ascii.eqb c "{"%char then
            match skip_ws s' with
            | "}"%char :: rest => Some (VObj [], rest)
            | _ => read_members (List.length s') [] s'
            end
          else if Ascii.eqb c "n"%char then expect "null" VNull (c :: s')
          else if Ascii.eqb c "t"%char then expect "true" (VBool true) (c :: s')
          else if Ascii.eqb c "f"%char then expect "false" (VBool false) (c :: s')
          else
            match read_number (c :: s') with
            | Some (n, rest) => Some (VNum n, rest)
            | None => None
            end
      end
  end.

Definition JSON_read (text : string) : result value :=
  let s := list_ascii_of_string text in
  match read_value (S (List.length s)) s with
  | Some (v, rest) =>
      match skip_ws rest with
      | [] => Ok v
      | _ :: _ => Throw (Error "SyntaxError" "Unexpected non-whitespace character after JSON")
      end
  | None => Throw (Error "SyntaxError" "Unexpected token in JSON")
  end.

Definition hex_digit (n : nat) : ascii :=
  if (n <? 10)%nat then ascii_of_nat (48 + n) else ascii_of_nat (87 + n).

Fixpoint escape (s : string) : string :=
  match s with
  | EmptyString => EmptyString
  | String c s' =>
      let n := nat_of_ascii c in
      (if Ascii.eqb c dquote_char then backslash ++ dquote
       else if Ascii.eqb c backslash_char then backslash ++ backslash
       else if (n =? 8)%nat then backslash ++ "b"
       else if (n =? 12)%nat then backslash ++ "f"
       else if (n =? 10)%nat then backslash ++ "n"
       else if (n =? 13)%nat then backslash ++ "r"
       else if (n =? 9)%nat then backslash ++ "t"
       else if (n <? 32)%nat
       then backslash ++ "u00" ++ String (hex_digit (n / 16)) (String (hex_digit (n mod 16)) EmptyString)
       else String c EmptyString) ++ escape s'
  end.

Definition quote (s : string) : string := dquote ++ escape s ++ dquote.

(** [None] is the [undefined] that [JSON.stringify] gives for a value it
    leaves out. *)
Fixpoint print_value (indent : string) (v : value) : option string :=
  let inner := indent ++ "  " in
  match v with
  | VUndefined => None
  | VNull => Some "null"
  | VBool true => Some "true"
  | VBool false => Some "false"
  | VNum n => Some (string_of_Z n)
  | VStr s => Some (quote s)
  | VArr l =>
      let items :=
        map (fun x => match print_value inner x with
                      | Some t => inner ++ t
                      | None => inner ++ "null"
                      end) l in
      match items with
      | [] => Some "[]"
      | _ => Some ("[" ++ nl ++ String.concat ("," ++ nl) items ++ nl ++ indent ++ "]")
      end
  | VObj o =>
      let members :=
        flat_map (fun kv => match print_value inner (snd kv) with
                            | Some t => [inner ++ quote (fst kv) ++ ": " ++ t]
                            | None => []
                            end) o in
      match members with
      | [] => Some "{}"
      | _ => Some ("{" ++ nl ++ String.concat ("," ++ nl) members ++ nl ++ indent ++ "}")
      end
  end.

Definition JSON_print (v : value) : string :=
  match print_value EmptyString v with
  | Some t => t
  | None => "undefined"
  end.

Definition join (segments : list string) : string :=
  String.concat "/" (filter (fun s => negb (s =? EmptyString)) segments).

(** A runtime whose working directory is [/work] and whose children end as
    [children] says. *)
Definition runtime (children : value -> list string -> props -> child) : Host :=
  mkHost "/work" join JSON_read JSON_print children.

Definition plain : chalk := mkChalk (fun s => s) (fun s => s) (fun s => s).

Definition no_files : fs := fun _ => None.

Definition one_file (path content : string) : fs := fs_write path content no_files.

Definition start (f : fs) : world := mkWorld f [].

End Node.

(** ** Vocabulary of the statements *)

(** [key_ltb k1 k2]: [k1] comes before [k2] among the own keys of an object
    whose non-index keys were created in ascending order. *)
Definition key_ltb (k1 k2 : string) : bool :=
  match array_index k1, array_index k2 with
  | Some a, Some b => (a <? b)%N
  | Some _, None => true
  | None, Some _ => false
  | None, None => String.ltb k1 k2
  end.

Definition key_lt (k1 k2 : string) : Prop := key_ltb k1 k2 = true.

Definition keys (o : props) : list string := map fst o.

(** The own keys of [o] are in the order [key_lt], and ["__proto__"] is not
    among them. *)
Definition canonical (o : props) : Prop :=
  StronglySorted key_lt (keys o) /\ ~ In "__proto__" (keys o).

(** The loop of [sortObject]: the keys [ks] are assigned in turn, each with
    the value [f] gives it. *)
Definition assign_all (f : string -> value) (ks : list string) (acc : props) : props :=
  fold_left (fun sortedObject item => obj_set sortedObject item (f item)) ks acc.

Definition logged (w : world) (evs : list event) : world :=
  mkWorld (files w) (trace w ++ evs)%list.

(** The two [if] blocks in a row, from [sorted = false]. *)
Definition sort_fields (pkg : value) : result (bool * value) :=
  rbind (sort_field "dependencies" (false, pkg)) (sort_field "devDependencies").

Definition starred_line (color : string -> string) (message : string) : event :=
  ConsoleLog [LStr (nl ++ nl ++ " " ++ color ("[*] " ++ message) ++ nl ++ nl)].

Definition install_failure_lines (executable : value) : list event :=
  [ConsoleLog [];
   ConsoleLog [LStr (" " ++ to_string executable ++
                     " install FAILED... Possible temporary npm registry issues?")];
   ConsoleLog [LStr " Please try again later..."];
   ConsoleLog []].

Definition lint_failure_lines (autoInstall : value) : list event :=
  [ConsoleLog [];
   ConsoleLog [LStr (" " ++ to_string autoInstall ++ " lint FAILED...")];
   ConsoleLog [LStr " Please try again later..."];
   ConsoleLog []].

Definition cwd_options (cwd : string) : props :=
  [("cwd", VStr cwd); ("stdio", VStr "inherit"); ("shell", VBool true)].

Definition is_spawn_call (e : event) : bool :=
  match e with
  | SpawnCall _ _ _ => true
  | _ => false
  end.

(** The calls of [runCommand] among the events. *)
Definition spawn_calls (evs : list event) : list event := filter is_spawn_call evs.

(** The promise of the command resolved. *)
Definition resolved (ch : child) : bool :=
  match ch with
  | ExitEvent code => negb (truthy (code_value code))
  | _ => false
  end.

(** Linting was selected: [data.preset.lint] is truthy. *)
Definition lint_selected (data : value) : bool :=
  truthy (prop (prop data "preset") "lint").

(** The configured style is one of the recognized ones. *)
Definition style_recognized (data : value) : bool :=
  indexOf_found ["prettier"; "standard"; "airbnb"] (prop data "lintConfig").

(** The manifest [sortDependencies] would write: each of the two fields
    that is truthy is replaced by its [sortObject]. *)
Definition sorted_manifest (pkg : value) : value :=
  let sort_in field pkg :=
    if truthy (prop pkg field)
    then match sortObject (prop pkg field) with
         | Ok o => set_prop pkg field o
         | Throw _ => pkg
         end
    else pkg in
  sort_in "devDependencies" (sort_in "dependencies" pkg).

Section Paths.

Context {host : Host}.

(** The manifest file of the project. *)
Definition manifest_path (data : value) : result string :=
  rbind (target_dir data) (fun dir => path_join_values [dir; VStr "package.json"]).

End Paths.

(** ** Concrete inputs *)

Module Runs.

Import Node.

Definition q (s : string) : string := dquote ++ s ++ dquote.

(** [{"name":"app"}] *)
Definition manifest_plain : string := "{" ++ q "name" ++ ":" ++ q "app" ++ "}".

(** [{"dependencies":{"a":"1","b":"2"}}], keys in order, on one line. *)
Definition manifest_in_order : string :=
  "{" ++ q "dependencies" ++ ":{" ++ q "a" ++ ":" ++ q "1" ++ "," ++
  q "b" ++ ":" ++ q "2" ++ "}}".

(** [{"dependencies":{"10":"1.0.0","9":"2.0.0"}}] *)
Definition manifest_numeric : string :=
  "{" ++ q "dependencies" ++ ":{" ++ q "10" ++ ":" ++ q "1.0.0" ++ "," ++
  q "9" ++ ":" ++ q "2.0.0" ++ "}}".

(** [{ inPlace: true, autoInstall: "npm", lintConfig: "standard",
       preset: { lint: true } }] *)
Definition data_npm : value :=
  VObj [("inPlace", VBool true); ("autoInstall", VStr "npm");
        ("lintConfig", VStr "standard"); ("preset", VObj [("lint", VBool true)])].

(** [{ inPlace: true, autoInstall: false, lintConfig: "airbnb",
       preset: { lint: true } }] *)
Definition data_manual : value :=
  VObj [("inPlace", VBool true); ("autoInstall", VBool false);
        ("lintConfig", VStr "airbnb"); ("preset", VObj [("lint", VBool true)])].

Definition is_install (args : list string) : bool :=
  if list_eq_dec string_dec args ["install"] then true else false.

(** The install command exits with 2. *)
Definition install_exits_2 (cmd : value) (args : list string) (options : props) : child :=
  if is_install args then ExitEvent (Some 2%Z) else ExitEvent (Some 0%Z).

(** The install command exits with 0 and the lint command with 1. *)
Definition lint_exits_1 (cmd : value) (args : list string) (options : props) : child :=
  if is_install args then ExitEvent (Some 0%Z) else ExitEvent (Some 1%Z).

(** Every command is ended by a signal. *)
Definition killed (cmd : value) (args : list string) (options : props) : child :=
  ExitEvent None.

(** The two-space JSON text of [{"dependencies":{"a":"1","b":"2"}}],
    followed by a newline. *)
Definition manifest_in_order_pretty : string :=
  "{" ++ nl ++
  "  " ++ q "dependencies" ++ ": {" ++ nl ++
  "    " ++ q "a" ++ ": " ++ q "1" ++ "," ++ nl ++
  "    " ++ q "b" ++ ": " ++ q "2" ++ nl ++
  "  }" ++ nl ++
  "}" ++ nl.

(** The text with the key 9 before the key 10. *)
Definition manifest_numeric_written : string :=
  "{" ++ nl ++
  "  " ++ q "dependencies" ++ ": {" ++ nl ++
  "    " ++ q "9" ++ ": " ++ q "2.0.0" ++ "," ++ nl ++
  "    " ++ q "10" ++ ": " ++ q "1.0.0" ++ nl ++
  "  }" ++ nl ++
  "}" ++ nl.

Definition enoent : exn :=
  Error "Error" "ENOENT: no such file or directory, open package.json".

Definition project (manifest : string) : world :=
  start (one_file "package.json" manifest).

End Runs.

Import Node Runs.

(** ** Further vocabulary and inputs *)

Definition is_write_file (e : event) : bool :=
  match e with
  | WriteFile _ _ => true
  | _ => false
  end.

(** No file is written among the events. *)
Definition no_write (evs : list event) : bool :=
  forallb (fun e => negb (is_write_file e)) evs.

(** The defaults [runCommand] starts its options from. *)
Definition default_options (cwd : string) : props :=
  [("cwd", VStr cwd); ("stdio", VStr "inherit"); ("shell", VBool true)].

(** One [if (pkg.field) { ... pkg.field = sortObject(pkg.field) }] block, as
    [sorted_manifest] applies it. *)
Definition sort_in (field : string) (pkg : value) : value :=
  if truthy (prop pkg field)
  then match sortObject (prop pkg field) with
       | Ok o => set_prop pkg field o
       | Throw _ => pkg
       end
  else pkg.

Module More.

Import Node Runs.

(** The same configuration as [data_npm], without [preset]. *)
Definition data_no_preset : value :=
  VObj [("inPlace", VBool true); ("autoInstall", VStr "yarn");
        ("lintConfig", VStr "standard")].

(** An installer, and linting not selected. *)
Definition data_no_lint : value :=
  VObj [("inPlace", VBool true); ("autoInstall", VStr "yarn");
        ("lintConfig", VStr "standard"); ("preset", VObj [("lint", VBool false)])].

(** A project generated into the directory [app], without installer and
    with [lint] at the top level. *)
Definition data_subdir : value :=
  VObj [("inPlace", VBool false); ("destDirName", VStr "app");
        ("autoInstall", VBool false); ("lint", VBool true);
        ("lintConfig", VStr "prettier")].

(** Every command exits with 0. *)
Definition all_succeed (cmd : value) (args : list string) (options : props) : child :=
  ExitEvent (Some 0%Z).

(** No command ever exits. *)
Definition never_exits (cmd : value) (args : list string) (options : props) : child :=
  NoExitEvent.

(** Dependencies out of order, and development dependencies. *)
Definition manifest_unordered : string :=
  "{" ++ q "name" ++ ":" ++ q "app" ++ "," ++
  q "dependencies" ++ ":{" ++ q "vue" ++ ":" ++ q "2" ++ "," ++
  q "axios" ++ ":" ++ q "1" ++ "}," ++
  q "devDependencies" ++ ":{" ++ q "eslint" ++ ":" ++ q "6" ++ "," ++
  q "babel" ++ ":" ++ q "7" ++ "}}".

Definition unordered_deps : props :=
  [("vue", VStr "2"); ("axios", VStr "1")].

Definition unordered_pkg : props :=
  [("name", VStr "app");
   ("dependencies", VObj unordered_deps);
   ("devDependencies", VObj [("eslint", VStr "6"); ("babel", VStr "7")])].

End More.

Import More.

(** * Properties *)

(** ** The order of strings *)

Lemma ascii_compare_refl (a : ascii) : Ascii.compare a a = Eq.
Proof. unfold Ascii.compare. apply N.compare_refl. Qed.

Lemma ascii_compare_lt_trans (a b c : ascii) :
  Ascii.compare a b = Lt -> Ascii.compare b c = Lt -> Ascii.compare a c = Lt.
Proof.
  unfold Ascii.compare. rewrite !N.compare_lt_iff. lia.
Qed.

Lemma string_compare_refl (s : string) : String.compare s s = Eq.
Proof.
  induction s as [|a s IH]; simpl; [reflexivity|].
  now rewrite ascii_compare_refl.
Qed.

Lemma string_compare_lt_trans (s1 s2 s3 : string) :
  String.compare s1 s2 = Lt -> String.compare s2 s3 = Lt ->
  String.compare s1 s3 = Lt.
Proof.
  revert s2 s3.
  induction s1 as [|a s1 IH]; intros [|b s2] [|c s3]; simpl;
    try discriminate; try reflexivity.
  destruct (Ascii.compare a b) eqn:Hab; try discriminate;
    destruct (Ascii.compare b c) eqn:Hbc; try discriminate; intros H1 H2.
  - apply Ascii.compare_eq_iff in Hab, Hbc. subst.
    rewrite ascii_compare_refl. eauto.
  - apply Ascii.compare_eq_iff in Hab. subst. now rewrite Hbc.
  - apply Ascii.compare_eq_iff in Hbc. subst. now rewrite Hab.
  - now rewrite (ascii_compare_lt_trans _ _ _ Hab Hbc).
Qed.

Lemma ltb_irrefl (s : string) : String.ltb s s = false.
Proof. unfold String.ltb. now rewrite string_compare_refl. Qed.

Lemma ltb_trans (s1 s2 s3 : string) :
  String.ltb s1 s2 = true -> String.ltb s2 s3 = true -> String.ltb s1 s3 = true.
Proof.
  unfold String.ltb.
  destruct (String.compare s1 s2) eqn:H12; try discriminate.
  destruct (String.compare s2 s3) eqn:H23; try discriminate.
  now rewrite (string_compare_lt_trans _ _ _ H12 H23).
Qed.

Lemma leb_ltb_or_eq (s1 s2 : string) :
  String.leb s1 s2 = true <-> String.ltb s1 s2 = true \/ s1 = s2.
Proof.
  unfold String.leb, String.ltb. split.
  - destruct (String.compare s1 s2) eqn:H; try discriminate; auto.
    right. now apply String.compare_eq_iff.
  - intros [H | ->].
    + destruct (String.compare s1 s2); congruence.
    + now rewrite string_compare_refl.
Qed.

Lemma leb_trans : Transitive (fun x y => is_true (String.leb x y)).
Proof.
  intros x y z Hxy Hyz. unfold is_true in *.
  apply leb_ltb_or_eq in Hxy, Hyz. apply leb_ltb_or_eq.
  destruct Hxy as [Hxy | ->]; destruct Hyz as [Hyz | ->]; auto.
  left. eapply ltb_trans; eauto.
Qed.

Lemma ltb_total (s1 s2 : string) :
  String.ltb s1 s2 = true \/ s1 = s2 \/ String.ltb s2 s1 = true.
Proof.
  unfold String.ltb. rewrite (String.compare_antisym s2 s1).
  destruct (String.compare s1 s2) eqn:H; simpl; auto.
  right. left. now apply String.compare_eq_iff.
Qed.

Lemma array_sort_sorted (l : list string) :
  StronglySorted (fun x y => String.leb x y = true) (array_sort l).
Proof.
  unfold array_sort.
  generalize (StringSort.StronglySorted_sort l leb_trans).
  apply StronglySorted_ind; constructor; auto.
Qed.

Lemma array_sort_In (l : list string) (k : string) :
  In k (array_sort l) <-> In k l.
Proof.
  unfold array_sort. split; intro H.
  - eapply Permutation_in; [apply Permutation_sym, StringSort.Permuted_sort | exact H].
  - eapply Permutation_in; [apply StringSort.Permuted_sort | exact H].
Qed.

(** ** The order of own keys *)

Lemma array_index_canonical (k : string) (n : N) :
  array_index k = Some n -> k = NilZero.string_of_uint (N.to_uint n).
Proof.
  unfold array_index.
  destruct (NilEmpty.uint_of_string k) as [u|]; [|discriminate].
  destruct (NilZero.string_of_uint (N.to_uint (N.of_uint u)) =? k) eqn:E;
    simpl; [|discriminate].
  destruct (N.of_uint u <? 4294967295)%N; [|discriminate].
  intros [= <-]. symmetry. now apply String.eqb_eq.
Qed.

Lemma array_index_inj (k1 k2 : string) (n : N) :
  array_index k1 = Some n -> array_index k2 = Some n -> k1 = k2.
Proof.
  intros H1 H2.
  rewrite (array_index_canonical _ H1), (array_index_canonical _ H2).
  reflexivity.
Qed.

Lemma key_lt_irrefl (k : string) : ~ key_lt k k.
Proof.
  unfold key_lt, key_ltb.
  destruct (array_index k).
  - rewrite N.ltb_irrefl. discriminate.
  - rewrite ltb_irrefl. discriminate.
Qed.

Lemma key_lt_trans (k1 k2 k3 : string) :
  key_lt k1 k2 -> key_lt k2 k3 -> key_lt k1 k3.
Proof.
  unfold key_lt, key_ltb.
  destruct (array_index k1), (array_index k2), (array_index k3);
    try discriminate; auto.
  - rewrite !N.ltb_lt. lia.
  - apply ltb_trans.
Qed.

Lemma key_lt_total (k1 k2 : string) :
  key_lt k1 k2 \/ k1 = k2 \/ key_lt k2 k1.
Proof.
  unfold key_lt, key_ltb.
  destruct (array_index k1) as [a|] eqn:H1, (array_index k2) as [b|] eqn:H2; auto.
  - destruct (N.lt_trichotomy a b) as [H | [-> | H]].
    + left. now apply N.ltb_lt.
    + right. left. eapply array_index_inj; eauto.
    + right. right. now apply N.ltb_lt.
  - apply ltb_total.
Qed.

Lemma sorted_unique (l1 l2 : list string) :
  StronglySorted key_lt l1 -> StronglySorted key_lt l2 ->
  (forall k, In k l1 <-> In k l2) -> l1 = l2.
Proof.
  intros H1. revert l2.
  induction H1 as [|a l1 Hs1 IH Ha]; intros l2 H2 Hin.
  - destruct l2 as [|b l2]; [reflexivity|].
    exfalso. apply (proj2 (Hin b)). now left.
  - destruct H2 as [|b l2 Hs2 Hb].
    + exfalso. apply (proj1 (Hin a)). now left.
    + rewrite Forall_forall in Ha, Hb.
      assert (a = b) as <-.
      { destruct (proj1 (Hin a) (or_introl eq_refl)) as [E | Hab]; [now symmetry|].
        destruct (proj2 (Hin b) (or_introl eq_refl)) as [E | Hba]; [exact E|].
        exfalso. apply (@key_lt_irrefl a).
        eapply key_lt_trans; [apply Ha, Hba | apply Hb, Hab]. }
      f_equal. apply IH; [exact Hs2|].
      intro k. split; intro Hk.
      * destruct (proj1 (Hin k) (or_intror Hk)) as [E | Hk2]; [|exact Hk2].
        subst k. exfalso. exact (key_lt_irrefl (Ha _ Hk)).
      * destruct (proj2 (Hin k) (or_intror Hk)) as [E | Hk1]; [|exact Hk1].
        subst k. exfalso. exact (key_lt_irrefl (Hb _ Hk)).
Qed.

(** ** Reading and writing own properties *)

Lemma lookup_in_keys (o : props) (k : string) :
  In k (keys o) <-> exists v, lookup k o = Some v.
Proof.
  induction o as [|[k' v'] o IH]; simpl.
  - split; [tauto | intros [v H]; discriminate].
  - destruct (String.eqb_spec k' k) as [-> | Hne].
    + split; eauto.
    + rewrite IH. split; [intros [E | H]; [contradiction | exact H] | auto].
Qed.

Lemma has_own_true (o : props) (k : string) :
  has_own o k = true <-> In k (keys o).
Proof.
  unfold has_own. rewrite lookup_in_keys.
  destruct (lookup k o); split; eauto; try discriminate.
  intros [v H]. discriminate.
Qed.

Lemma has_own_false (o : props) (k : string) :
  has_own o k = false <-> ~ In k (keys o).
Proof.
  rewrite <- has_own_true. destruct (has_own o k); split; congruence.
Qed.

Lemma lookup_not_in (o : props) (k : string) :
  ~ In k (keys o) -> lookup k o = None.
Proof.
  rewrite lookup_in_keys. destruct (lookup k o); eauto.
  intro H. exfalso. eauto.
Qed.

Lemma keys_update (k : string) (v : value) (o : props) :
  keys (update k v o) = keys o.
Proof.
  induction o as [|[k' v'] o IH]; simpl; [reflexivity|].
  destruct (k' =? k); simpl; [reflexivity | now rewrite IH].
Qed.

Lemma lookup_update_same (k : string) (v : value) (o : props) :
  In k (keys o) -> lookup k (update k v o) = Some v.
Proof.
  induction o as [|[k' v'] o IH]; simpl; [tauto|].
  destruct (String.eqb_spec k' k) as [-> | Hne]; simpl.
  - now rewrite String.eqb_refl.
  - intros [E | H]; [contradiction|].
    apply String.eqb_neq in Hne. rewrite Hne. auto.
Qed.

Lemma lookup_update_other (k k' : string) (v : value) (o : props) :
  k' <> k -> lookup k' (update k v o) = lookup k' o.
Proof.
  intro Hne. induction o as [|[k0 v0] o IH]; simpl; [reflexivity|].
  destruct (String.eqb_spec k0 k) as [-> | Hk]; simpl.
  - apply not_eq_sym, String.eqb_neq in Hne. now rewrite Hne.
  - now rewrite IH.
Qed.

Lemma keys_add_index (n : N) (k k' : string) (v : value) (o : props) :
  In k' (keys (add_index n k v o)) <-> k' = k \/ In k' (keys o).
Proof.
  induction o as [|[k0 v0] o IH]; simpl.
  - intuition.
  - destruct (array_index k0) as [n0|]; [destruct (n0 <? n)%N|]; simpl;
      rewrite ?IH; intuition.
Qed.

Lemma lookup_add_index_same (n : N) (k : string) (v : value) (o : props) :
  ~ In k (keys o) -> lookup k (add_index n k v o) = Some v.
Proof.
  induction o as [|[k0 v0] o IH]; simpl; intro Hk.
  - now rewrite String.eqb_refl.
  - destruct (array_index k0) as [n0|]; [destruct (n0 <? n)%N|]; simpl;
      rewrite ?String.eqb_refl; try reflexivity.
    destruct (String.eqb_spec k0 k) as [E | _]; [tauto | auto].
Qed.

Lemma lookup_add_index_other (n : N) (k k' : string) (v : value) (o : props) :
  k' <> k -> lookup k' (add_index n k v o) = lookup k' o.
Proof.
  intro Hne. apply not_eq_sym, String.eqb_neq in Hne.
  induction o as [|[k0 v0] o IH]; simpl.
  - now rewrite Hne.
  - destruct (array_index k0) as [n0|]; [destruct (n0 <? n)%N|]; simpl;
      rewrite ?Hne, ?IH; reflexivity.
Qed.

Lemma lookup_app_last (k k' : string) (v : value) (o : props) :
  lookup k' (o ++ [(k, v)])%list =
  match lookup k' o with
  | Some x => Some x
  | None => if k =? k' then Some v else None
  end.
Proof.
  induction o as [|[k0 v0] o IH]; simpl; [reflexivity|].
  destruct (k0 =? k'); [reflexivity | exact IH].
Qed.

Lemma keys_add_property (k k' : string) (v : value) (o : props) :
  In k' (keys (add_property k v o)) <-> k' = k \/ In k' (keys o).
Proof.
  unfold add_property. destruct (array_index k).
  - apply keys_add_index.
  - unfold keys. rewrite map_app, in_app_iff. simpl. intuition.
Qed.

Lemma lookup_add_property_same (k : string) (v : value) (o : props) :
  ~ In k (keys o) -> lookup k (add_property k v o) = Some v.
Proof.
  intro Hk. unfold add_property. destruct (array_index k).
  - now apply lookup_add_index_same.
  - rewrite lookup_app_last, (lookup_not_in _ _ Hk), String.eqb_refl. reflexivity.
Qed.

Lemma lookup_add_property_other (k k' : string) (v : value) (o : props) :
  k' <> k -> lookup k' (add_property k v o) = lookup k' o.
Proof.
  intro Hne. unfold add_property. destruct (array_index k).
  - now apply lookup_add_index_other.
  - rewrite lookup_app_last. apply not_eq_sym, String.eqb_neq in Hne.
    rewrite Hne. now destruct (lookup k' o).
Qed.

Lemma sorted_cons_before (k k0 : string) (l : list string) :
  key_lt k k0 -> StronglySorted key_lt (k0 :: l) ->
  StronglySorted key_lt (k :: k0 :: l).
Proof.
  intros Hlt Hs. constructor; [exact Hs|].
  apply StronglySorted_inv in Hs. destruct Hs as [_ Hall].
  rewrite Forall_forall in Hall.
  constructor; [exact Hlt|].
  apply Forall_forall. intros x Hx.
  eapply key_lt_trans; [exact Hlt | auto].
Qed.

Lemma sorted_add_index (n : N) (k : string) (v : value) (o : props) :
  array_index k = Some n -> ~ In k (keys o) ->
  StronglySorted key_lt (keys o) ->
  StronglySorted key_lt (keys (add_index n k v o)).
Proof.
  intros Hk Hnot Hs.
  induction o as [|[k0 v0] o IH]; simpl in *.
  - repeat constructor.
  - destruct (array_index k0) as [n0|] eqn:E0.
    + destruct (n0 <? n)%N eqn:Hlt; simpl.
      * apply StronglySorted_inv in Hs. destruct Hs as [Hs Hall].
        rewrite Forall_forall in Hall.
        constructor.
        -- apply IH; [tauto | exact Hs].
        -- apply Forall_forall. intros x Hx.
           apply keys_add_index in Hx. destruct Hx as [-> | Hx]; [|auto].
           unfold key_lt, key_ltb. now rewrite E0, Hk.
      * apply sorted_cons_before; [|exact Hs].
        unfold key_lt, key_ltb. rewrite Hk, E0.
        apply N.ltb_lt. apply N.ltb_ge in Hlt.
        assert (n0 <> n).
        { intros ->. apply Hnot. left. eapply array_index_inj; eauto. }
        lia.
    + simpl. apply sorted_cons_before; [|exact Hs].
      unfold key_lt, key_ltb. now rewrite Hk, E0.
Qed.

Lemma sorted_app_last (k : string) (l : list string) :
  StronglySorted key_lt l -> (forall x, In x l -> key_lt x k) ->
  StronglySorted key_lt (l ++ [k])%list.
Proof.
  induction 1 as [|a l Hs IH Ha]; intro Hall; simpl.
  - repeat constructor.
  - constructor.
    + apply IH. intros x Hx. apply Hall. now right.
    + rewrite Forall_forall in *. intros x Hx.
      apply in_app_iff in Hx. destruct Hx as [Hx | [<- | []]]; [auto|].
      apply Hall. now left.
Qed.

Lemma keys_obj_set (o : props) (k k' : string) (v : value) :
  In k' (keys (obj_set o k v)) <->
  In k' (keys o) \/ (k' = k /\ k <> "__proto__").
Proof.
  unfold obj_set. destruct (has_own o k) eqn:Hown.
  - rewrite keys_update. apply has_own_true in Hown.
    split; [auto | intros [H | [-> _]]; assumption].
  - destruct (String.eqb_spec k "__proto__") as [-> | Hne].
    + tauto.
    + rewrite keys_add_property. tauto.
Qed.

Lemma lookup_obj_set_same (o : props) (k : string) (v : value) :
  k <> "__proto__" -> lookup k (obj_set o k v) = Some v.
Proof.
  intro Hne. unfold obj_set. destruct (has_own o k) eqn:Hown.
  - apply lookup_update_same. now apply has_own_true.
  - apply String.eqb_neq in Hne. rewrite Hne.
    apply lookup_add_property_same. now apply has_own_false.
Qed.

Lemma lookup_obj_set_other (o : props) (k k' : string) (v : value) :
  k' <> k -> lookup k' (obj_set o k v) = lookup k' o.
Proof.
  intro Hne. unfold obj_set. destruct (has_own o k).
  - now apply lookup_update_other.
  - destruct (k =? "__proto__"); [reflexivity|].
    now apply lookup_add_property_other.
Qed.

Lemma canonical_obj_set (o : props) (k : string) (v : value) :
  canonical o ->
  (forall x, In x (keys o) -> array_index x = None -> String.leb x k = true) ->
  canonical (obj_set o k v).
Proof.
  intros [Hs Hp] Hle. split.
  - unfold obj_set. destruct (has_own o k) eqn:Hown.
    + now rewrite keys_update.
    + destruct (k =? "__proto__"); [exact Hs|].
      apply has_own_false in Hown.
      unfold add_property. destruct (array_index k) as [n|] eqn:Hk.
      * now apply sorted_add_index.
      * unfold keys. rewrite map_app. simpl.
        apply sorted_app_last; [exact Hs|].
        intros x Hx. unfold key_lt, key_ltb. rewrite Hk.
        destruct (array_index x) eqn:Hx'; [reflexivity|].
        destruct (proj1 (leb_ltb_or_eq x k) (Hle x Hx Hx')) as [H | ->];
          [exact H | contradiction].
  - rewrite keys_obj_set. intros [H | [E H]]; [auto | now apply H].
Qed.

Lemma assign_all_spec (f : string -> value) (ks : list string) :
  StronglySorted (fun x y => String.leb x y = true) ks ->
  forall acc,
    canonical acc ->
    (forall x y, In x (keys acc) -> array_index x = None -> In y ks ->
                 String.leb x y = true) ->
    let r := assign_all f ks acc in
    canonical r /\
    (forall k, In k (keys r) <-> In k (keys acc) \/ (In k ks /\ k <> "__proto__")) /\
    (forall k, In k ks -> k <> "__proto__" -> lookup k r = Some (f k)) /\
    (forall k, ~ In k ks -> lookup k r = lookup k acc).
Proof.
  induction 1 as [|a ks Hs IH Ha]; intros acc Hc Hle; simpl.
  - split; [exact Hc|]. split; [|split].
    + intro k. simpl. tauto.
    + intros k [].
    + reflexivity.
  - rewrite Forall_forall in Ha.
    assert (Hc' : canonical (obj_set acc a (f a))).
    { apply canonical_obj_set; [exact Hc|]. intros x Hx Hi. apply Hle; simpl; auto. }
    assert (Hle' : forall x y, In x (keys (obj_set acc a (f a))) ->
                     array_index x = None -> In y ks -> String.leb x y = true).
    { intros x y Hx Hi Hy. apply keys_obj_set in Hx.
      destruct Hx as [Hx | [-> _]]; [apply Hle; simpl; auto | auto]. }
    destruct (IH _ Hc' Hle') as (R1 & R2 & R3 & R4).
    fold (assign_all f ks (obj_set acc a (f a))).
    split; [exact R1|]. split; [|split].
    + intro k. rewrite R2, keys_obj_set. simpl. split.
      * intros [[H | [-> H]] | [H1 H2]]; auto.
      * intros [H | [[<- | H] Hp]]; auto.
    + intros k [<- | Hk] Hp; [|auto].
      destruct (in_dec string_dec a ks) as [Hin | Hnin]; [auto|].
      rewrite (R4 _ Hnin). now apply lookup_obj_set_same.
    + intros k Hk. rewrite R4 by tauto.
      apply lookup_obj_set_other. intros ->. apply Hk. now left.
Qed.

Lemma canonical_nil : canonical [].
Proof. split; [constructor | simpl; tauto]. Qed.

Lemma sortObject_unfold (x : value) (ks : list string) :
  Object_keys x = Ok ks ->
  sortObject x = Ok (VObj (assign_all (prop x) (array_sort ks) [])).
Proof. intro H. unfold sortObject. now rewrite H. Qed.

Lemma sortObject_VObj (o : props) :
  sortObject (VObj o) = Ok (VObj (assign_all (prop (VObj o)) (array_sort (keys o)) [])).
Proof. reflexivity. Qed.

(** What [sortObject] returns, whatever it is given: an object in canonical
    order that holds every key of the argument but ["__proto__"], each with
    the value the argument has there. *)
Lemma sortObject_spec (x y : value) :
  sortObject x = Ok y ->
  exists ks r,
    Object_keys x = Ok ks /\ y = VObj r /\ canonical r /\
    (forall k, In k (keys r) <-> In k ks /\ k <> "__proto__") /\
    (forall k, In k ks -> k <> "__proto__" -> lookup k r = Some (prop x k)) /\
    (forall k, ~ In k ks -> lookup k r = None).
Proof.
  unfold sortObject. destruct (Object_keys x) as [ks | e] eqn:Hk; simpl; [|discriminate].
  intros [= <-]. exists ks. eexists. split; [reflexivity|]. split; [reflexivity|].
  destruct (@assign_all_spec (prop x) (array_sort ks) (array_sort_sorted ks) []
              canonical_nil) as (R1 & R2 & R3 & R4).
  { simpl. tauto. }
  split; [exact R1|]. split; [|split].
  - intro k. rewrite R2, array_sort_In. simpl. tauto.
  - intros k Hin Hp. apply R3; [now apply array_sort_In | exact Hp].
  - intros k Hnin. rewrite R4; [reflexivity | now rewrite array_sort_In].
Qed.

Lemma sorted_NoDup (l : list string) : StronglySorted key_lt l -> NoDup l.
Proof.
  induction 1 as [|a l Hs IH Ha]; constructor; [|exact IH].
  rewrite Forall_forall in Ha. intro Hin. exact (key_lt_irrefl (Ha _ Hin)).
Qed.

Lemma props_ext (o1 o2 : props) :
  keys o1 = keys o2 -> NoDup (keys o1) ->
  (forall k, In k (keys o1) -> lookup k o1 = lookup k o2) ->
  o1 = o2.
Proof.
  revert o2. induction o1 as [|[k1 v1] o1 IH]; intros [|[k2 v2] o2]; simpl;
    try discriminate; [reflexivity|].
  intros [= <- Hk] Hnd Hl. inversion Hnd as [|? ? Hnot Hnd']; subst.
  pose proof (Hl k1 (or_introl eq_refl)) as H1.
  rewrite String.eqb_refl in H1. injection H1 as <-.
  f_equal. apply IH; [exact Hk | exact Hnd' |].
  intros k Hin. specialize (Hl k (or_intror Hin)).
  destruct (String.eqb_spec k1 k) as [-> | _]; [contradiction | exact Hl].
Qed.

(** An object in canonical order is left as it is. *)
Lemma sortObject_canonical_fixed (o : props) :
  canonical o -> sortObject (VObj o) = Ok (VObj o).
Proof.
  intros [Hs Hp].
  destruct (sortObject (VObj o)) as [y | e] eqn:E; [|discriminate].
  destruct (sortObject_spec _ E) as (ks & r & Hks & -> & [Hrs Hrp] & Hin & Hval & _).
  simpl in Hks. injection Hks as <-.
  assert (Hkeys : keys r = keys o).
  { apply sorted_unique; [exact Hrs | exact Hs |].
    intro k. rewrite Hin. fold (keys o). split; [tauto|].
    intro H. split; [exact H | intros ->; contradiction]. }
  do 2 f_equal. apply props_ext; [exact Hkeys | now apply sorted_NoDup |].
  intros k Hk. rewrite Hkeys in Hk.
  rewrite Hval; [| exact Hk | intros ->; contradiction].
  simpl. apply lookup_in_keys in Hk. destruct Hk as [v Hv]. now rewrite Hv.
Qed.

(** ** [sortObject] *)

Lemma sortObject_total (o : props) : exists r, sortObject (VObj o) = Ok (VObj r).
Proof. eexists. apply sortObject_VObj. Qed.

(** C5: sorting the keys twice is the same as sorting them once:
    [sortObject(sortObject(x))] equals [sortObject(x)] for every [x], as
    objects with their key order (and both throw the same error when [x]
    is [undefined] or [null]). *)
Theorem sortObject_idempotent (x : value) :
  rbind (sortObject x) sortObject = sortObject x.
Proof.
  destruct (sortObject x) as [y | e] eqn:E; simpl; [|reflexivity].
  destruct (sortObject_spec _ E) as (ks & r & _ & -> & Hc & _).
  now apply sortObject_canonical_fixed.
Qed.

(** On an object without array-index keys and without ["__proto__"],
    [sortObject] gives the same key-value pairs with the keys in strictly
    ascending order. *)
Lemma sortObject_plain_keys (o r : props) :
  (forall k, In k (keys o) -> array_index k = None /\ k <> "__proto__") ->
  sortObject (VObj o) = Ok (VObj r) ->
  StronglySorted (fun x y => String.ltb x y = true) (keys r) /\
  (forall k, lookup k r = lookup k o).
Proof.
  intros Hplain E.
  destruct (sortObject_spec _ E) as (ks & r' & Hks & Hr & [Hs Hp] & Hin & Hval & Hnone).
  injection Hr as <-. simpl in Hks. injection Hks as <-. fold (keys o) in *.
  split.
  - assert (Hall : forall k, In k (keys r) -> array_index k = None).
    { intros k Hk. apply Hin in Hk. now apply Hplain. }
    revert Hall. clear - Hs. induction Hs as [|a l Hs IH Ha]; intro Hall.
    + constructor.
    + constructor.
      * apply IH. intros k Hk. apply Hall. now right.
      * rewrite Forall_forall in *. intros x Hx.
        specialize (Ha x Hx). unfold key_lt, key_ltb in Ha.
        rewrite (Hall a), (Hall x) in Ha; simpl; auto.
  - intro k. destruct (in_dec string_dec k (keys o)) as [Hk | Hk].
    + rewrite Hval; [| exact Hk | now apply Hplain].
      simpl. apply lookup_in_keys in Hk. destruct Hk as [v Hv]. now rewrite Hv.
    + rewrite (Hnone _ Hk). symmetry. now apply lookup_not_in.
Qed.

(** ** The program *)

Unset Implicit Arguments.

Section Orchestration.

Context {host : Host}.

Lemma logged_nil (w : world) : logged w [] = w.
Proof. destruct w. unfold logged. simpl. now rewrite app_nil_r. Qed.

Lemma logged_logged (w : world) (l1 l2 : list event) :
  logged (logged w l1) l2 = logged w (l1 ++ l2)%list.
Proof. unfold logged. simpl. now rewrite app_assoc. Qed.

Lemma emit_logged (e : event) (w : world) : emit e w = (Returned tt, logged w [e]).
Proof. reflexivity. Qed.

Lemma spawn_options_cwd (cwd : string) :
  spawn_options [("cwd", VStr cwd)] =
  [("cwd", VStr cwd); ("stdio", VStr "inherit"); ("shell", VBool true)].
Proof. reflexivity. Qed.

(** *** [runCommand] *)

Lemma runCommand_run (cmd : value) (args : list string) (options : props) (w : world) :
  runCommand cmd args options w =
  (match spawn cmd args (spawn_options options) with
   | SpawnThrows e => Thrown e
   | ExitEvent code =>
       if truthy (code_value code)
       then Thrown (ThrownValue (code_value code))
       else Returned tt
   | NoExitEvent => Pending
   end,
   logged w [SpawnCall cmd args (spawn_options options)]).
Proof.
  unfold runCommand, bind. rewrite emit_logged.
  destruct (spawn cmd args (spawn_options options)) as [e | code |]; try reflexivity.
  now destruct (truthy (code_value code)).
Qed.

(** C7: when the child exits with code 0 the promise of [runCommand]
    resolves with no value, and when it exits with another code the promise
    rejects with that code. *)
Theorem runCommand_exit_code (cmd : value) (args : list string) (options : props)
    (w : world) (code : Z) :
  spawn cmd args (spawn_options options) = ExitEvent (Some code) ->
  runCommand cmd args options w =
  (if (code =? 0)%Z then Returned tt else Thrown (ThrownValue (VNum code)),
   logged w [SpawnCall cmd args (spawn_options options)]).
Proof.
  intro H. rewrite runCommand_run, H. simpl.
  now destruct (code =? 0)%Z.
Qed.

(** C10: once the ['exit'] event has reported a code, [runCommand] rejects
    exactly when that code is truthy; a [null] code, which a child ended by
    a signal reports, resolves the promise. *)
Theorem runCommand_rejects_iff_truthy (cmd : value) (args : list string)
    (options : props) (w : world) (code : option Z) :
  spawn cmd args (spawn_options options) = ExitEvent code ->
  ((exists e, fst (runCommand cmd args options w) = Thrown e) <->
   truthy (code_value code) = true) /\
  (code = None -> fst (runCommand cmd args options w) = Returned tt).
Proof.
  intro H. rewrite runCommand_run, H. simpl. split.
  - destruct (truthy (code_value code)); split; eauto; try discriminate.
    intros [e He]. discriminate.
  - intros ->. reflexivity.
Qed.

(** *** [sortDependencies] *)

Lemma sortDependencies_run (data : value) (w : world) :
  sortDependencies data w =
  match manifest_path data with
  | Throw e => (Thrown e, w)
  | Ok pkgFile =>
      match files w pkgFile with
      | None =>
          (Thrown (Error "Error" ("ENOENT: no such file or directory, open " ++ pkgFile)), w)
      | Some content =>
          match rbind (JSON_parse content) sort_fields with
          | Throw e => (Thrown e, w)
          | Ok (false, _) => (Returned tt, w)
          | Ok (true, pkg) =>
              (Returned tt,
               mkWorld (fs_write pkgFile (JSON_stringify2 pkg ++ nl) (files w))
                       (trace w ++ [WriteFile pkgFile (JSON_stringify2 pkg ++ nl)]))
          end
      end
  end.
Proof.
  unfold sortDependencies, manifest_path, sort_fields, bind, lift, readFileSync.
  destruct (target_dir data) as [dir | e]; [|reflexivity].
  cbv beta iota delta [rbind].
  destruct (path_join_values [dir; VStr "package.json"]) as [pkgFile | e];
    [|reflexivity].
  cbv beta iota.
  destruct (files w pkgFile) as [content|]; [|reflexivity].
  destruct (JSON_parse content) as [pkg | e]; [|reflexivity].
  cbv beta iota.
  destruct (sort_field "dependencies" (false, pkg)) as [st | e]; [|reflexivity].
  cbv beta iota.
  destruct (sort_field "devDependencies" st) as [[[|] pkg'] | e]; reflexivity.
Qed.

Lemma sortDependencies_throw_world (data : value) (w w1 : world) (e : exn) :
  sortDependencies data w = (Thrown e, w1) -> w1 = w.
Proof.
  rewrite sortDependencies_run.
  destruct (manifest_path data) as [pkgFile | e0]; [|congruence].
  destruct (files w pkgFile) as [content|]; [|congruence].
  destruct (rbind (JSON_parse content) sort_fields) as [[[|] pkg] | e0];
    congruence.
Qed.

(** C1, as the code has it: an error thrown by the manifest-sorting stage
    is not caught inside [complete].  It leaves [complete] as it came (the
    promise of [complete] rejects with it), nothing is printed, no file is
    written, and [printMessage] is not reached. *)
Theorem complete_rethrows_sort_error (data : value) (c : chalk) (w w1 : world) (e : exn) :
  sortDependencies data w = (Thrown e, w1) ->
  complete data c w = (Thrown e, w) /\ w1 = w.
Proof.
  intro H. pose proof (sortDependencies_throw_world _ _ _ _ H) as ->.
  split; [|reflexivity].
  unfold complete, bind at 1. now rewrite H.
Qed.

(** *** The stages after the sort *)

Lemma get_prop_defined (x : value) (k : string) (v : value) :
  get_prop x k = Ok v -> forall k', get_prop x k' = Ok (prop x k').
Proof. destruct x; simpl; intros H k'; try reflexivity; discriminate. Qed.

Lemma truthy_not_undefined (a : value) :
  truthy a = true ->
  match a with VUndefined => VStr "npm" | _ => a end = a.
Proof. destruct a; simpl; intro H; try reflexivity; discriminate. Qed.

Ltac run_logs :=
  unfold bind, console_log, emit, process_exit, ret, logged;
  cbn [files trace]; rewrite <- ?app_assoc; reflexivity.

Lemma installDependencies_run (cwd : string) (a : value) (color : string -> string)
    (w : world) :
  truthy a = true ->
  let call := SpawnCall a ["install"] (cwd_options cwd) in
  let line := starred_line color "Installing project dependencies..." in
  installDependencies cwd a color w =
  match spawn a ["install"] (cwd_options cwd) with
  | NoExitEvent => (Pending, logged w [line; call])
  | ch =>
      if resolved ch
      then (Returned tt, logged w [line; call])
      else (Exited 1, logged w ([line; call] ++ install_failure_lines a)%list)
  end.
Proof.
  intro Ha. unfold installDependencies. rewrite (truthy_not_undefined _ Ha).
  unfold bind at 1, starredLog, console_log. rewrite emit_logged.
  unfold try_catch. rewrite runCommand_run, spawn_options_cwd.
  fold (cwd_options cwd). rewrite logged_logged.
  destruct (spawn a ["install"] (cwd_options cwd)) as [e | code |];
    cbn [resolved negb].
  - run_logs.
  - destruct (truthy (code_value code)); cbn [negb]; [run_logs | reflexivity].
  - reflexivity.
Qed.

Lemma lint_fix_wanted_run (data : value) :
  lint_fix_wanted data =
  match data with
  | VUndefined | VNull => Throw (Error "TypeError" ("Cannot read properties of " ++ to_string data))
  | _ =>
      match prop data "preset" with
      | VUndefined | VNull =>
          Throw (Error "TypeError"
                   ("Cannot read properties of " ++ to_string (prop data "preset")))
      | preset =>
          Ok (truthy (prop preset "lint") &&
              indexOf_found lintStyles (prop data "lintConfig"))
      end
  end.
Proof.
  unfold lint_fix_wanted.
  destruct data; try reflexivity;
    cbv beta iota delta [rbind get_prop];
    match goal with
    | |- context [prop ?d "preset"] => destruct (prop d "preset") eqn:Hp
    end; try reflexivity;
    cbv beta iota;
    match goal with
    | |- context [truthy ?l] => destruct (truthy l)
    end; reflexivity.
Qed.

Lemma runLintFix_run (cwd : string) (data a : value) (color : string -> string)
    (w : world) :
  get_prop data "autoInstall" = Ok a ->
  let call := SpawnCall a (lint_fix_args a) (cwd_options cwd) in
  let line := starred_line color "Running eslint --fix to comply with chosen preset rules..." in
  runLintFix cwd data color w =
  match lint_fix_wanted data with
  | Throw e => (Thrown e, w)
  | Ok false => (Returned tt, w)
  | Ok true =>
      match spawn a (lint_fix_args a) (cwd_options cwd) with
      | NoExitEvent => (Pending, logged w [line; call])
      | ch =>
          if resolved ch
          then (Returned tt, logged w [line; call])
          else (Returned tt, logged w ([line; call] ++ lint_failure_lines a)%list)
      end
  end.
Proof.
  intro Ha. unfold runLintFix, bind at 1, lift.
  destruct (lint_fix_wanted data) as [[|] | e]; try reflexivity.
  unfold bind at 1, starredLog, console_log. rewrite emit_logged.
  unfold bind at 1, lift. rewrite Ha.
  unfold try_catch. rewrite runCommand_run, spawn_options_cwd.
  fold (cwd_options cwd). rewrite logged_logged.
  destruct (spawn a (lint_fix_args a) (cwd_options cwd)) as [e | code |];
    cbn [resolved negb].
  - run_logs.
  - destruct (truthy (code_value code)); cbn [negb]; [run_logs | reflexivity].
  - reflexivity.
Qed.

Lemma final_message_total (data : value) (c : chalk) (k : string) (v : value) :
  get_prop data k = Ok v ->
  exists rest, final_message data c = Ok (nl ++ " " ++ rest).
Proof.
  intro H. pose proof (get_prop_defined _ _ _ H) as Hd.
  unfold final_message, installMsg, lintMsg. rewrite !Hd.
  cbv beta iota delta [rbind].
  destruct (truthy (prop data "inPlace"));
    destruct (negb (truthy (prop data "autoInstall")));
    cbv beta iota;
    try destruct (truthy (prop data "lint"));
    try destruct (indexOf_found lintStyles (prop data "lintConfig"));
    eexists; reflexivity.
Qed.

Lemma printMessage_run (data : value) (c : chalk) (w : world) (msg : string) :
  final_message data c = Ok msg ->
  printMessage data c w = (Returned tt, logged w [ConsoleLog [LStr msg]]).
Proof.
  intro H. unfold printMessage, bind, lift. now rewrite H.
Qed.

(** [complete], once the sort has returned. *)
Lemma complete_after_sort (data : value) (c : chalk) (w w1 : world)
    (cwd : string) (a : value) :
  sortDependencies data w = (Returned tt, w1) ->
  project_dir data = Ok cwd ->
  get_prop data "autoInstall" = Ok a ->
  complete data c w =
  bind
    (try_catch
       (if truthy a
        then bind (installDependencies cwd a (green c))
                  (fun _ => runLintFix cwd data (green c))
        else ret tt)
       (fun e => console_log [LStr (red c "Error:"); LExn e]))
    (fun _ => printMessage data c) w1.
Proof.
  intros Hs Hd Ha. unfold complete.
  unfold bind at 1. rewrite Hs.
  unfold bind at 1, lift at 1. rewrite Hd.
  unfold bind at 1, try_catch at 1.
  unfold bind at 2, try_catch at 1.
  unfold bind at 2, lift at 1. rewrite Ha.
  reflexivity.
Qed.

Lemma lint_fix_wanted_cases (data : value) (k : string) (v : value) :
  get_prop data k = Ok v ->
  lint_fix_wanted data = Ok (lint_selected data && style_recognized data) \/
  (exists e, lint_fix_wanted data = Throw e /\ lint_selected data = false).
Proof.
  intro H. rewrite lint_fix_wanted_run. unfold lint_selected, style_recognized.
  destruct data; try discriminate;
    destruct (prop _ "preset"); simpl; eauto.
Qed.

Lemma spawn_calls_app (l1 l2 : list event) :
  spawn_calls (l1 ++ l2) = (spawn_calls l1 ++ spawn_calls l2)%list.
Proof. apply filter_app. Qed.

(** The [catch] of [complete] and [printMessage] only print. *)
Lemma tail_keeps_spawn_calls (data : value) (c : chalk) (w1 : world) (m : M unit)
    (out : outcome unit) (evs : list event) (k : string) (v : value) :
  get_prop data k = Ok v ->
  m w1 = (out, logged w1 evs) ->
  exists out' evs',
    bind (try_catch m (fun e => console_log [LStr (red c "Error:"); LExn e]))
         (fun _ => printMessage data c) w1 = (out', logged w1 evs') /\
    spawn_calls evs' = spawn_calls evs.
Proof.
  intros Hd Hm.
  destruct (final_message_total _ c _ _ Hd) as [rest Hmsg].
  unfold bind, try_catch. rewrite Hm.
  destruct out as [[] | e | s |].
  - rewrite (printMessage_run _ _ _ _ Hmsg), logged_logged.
    do 2 eexists. split; [reflexivity|].
    rewrite spawn_calls_app. simpl. now rewrite ?app_nil_r.
  - unfold console_log. rewrite emit_logged, logged_logged.
    rewrite (printMessage_run _ _ _ _ Hmsg), logged_logged.
    do 2 eexists. split; [reflexivity|].
    rewrite !spawn_calls_app. simpl. now rewrite ?app_nil_r.
  - do 2 eexists. split; reflexivity.
  - do 2 eexists. split; reflexivity.
Qed.

(** C8: the lint-fix command is run exactly when an installer is
    configured, its install command succeeded, linting was selected
    ([preset.lint]) and the style is one of prettier, standard and airbnb;
    it is then the configured installer with the arguments
    [run lint -- --fix] for npm and [run lint --fix] for any other
    installer.  The calls of [runCommand] that [complete] makes after the
    sort are listed in full. *)
Theorem lint_fix_runs_exactly_when (data : value) (c : chalk) (w w1 : world)
    (cwd : string) (a : value) :
  sortDependencies data w = (Returned tt, w1) ->
  project_dir data = Ok cwd ->
  get_prop data "autoInstall" = Ok a ->
  exists out evs,
    complete data c w = (out, logged w1 evs) /\
    spawn_calls evs =
    if truthy a then
      SpawnCall a ["install"] (cwd_options cwd) ::
      (if resolved (spawn a ["install"] (cwd_options cwd)) &&
          lint_selected data && style_recognized data
       then [SpawnCall a
               (if strict_eq_str a "npm"
                then ["run"; "lint"; "--"; "--fix"]
                else ["run"; "lint"; "--fix"])
               (cwd_options cwd)]
       else [])
    else [].
Proof.
  intros Hs Hd Ha. rewrite (complete_after_sort _ c _ _ _ _ Hs Hd Ha).
  match goal with
  | |- exists out evs, bind (try_catch ?m _) _ _ = _ /\ spawn_calls evs = ?calls =>
      assert (Hbody : exists out evs, m w1 = (out, logged w1 evs) /\
                                      spawn_calls evs = calls)
  end.
  { destruct (truthy a) eqn:Ht.
    - unfold bind. rewrite (installDependencies_run _ _ _ _ Ht).
      fold (lint_fix_args a).
      destruct (spawn a ["install"] (cwd_options cwd)) as [e | code |] eqn:Hsp.
      + do 2 eexists. split; reflexivity.
      + cbn [resolved]. destruct (negb (truthy (code_value code))).
        * rewrite (runLintFix_run _ _ _ _ _ Ha).
          destruct (lint_fix_wanted_cases _ _ _ Ha) as [-> | [e [-> ->]]].
          -- destruct (lint_selected data && style_recognized data) eqn:Hw;
               rewrite ?andb_true_l in *; rewrite ?Hw.
             ++ destruct (spawn a (lint_fix_args a) (cwd_options cwd)) as [e | code' |];
                  cbn [resolved];
                  [| destruct (negb (truthy (code_value code'))) |];
                  rewrite ?logged_logged; do 2 eexists; split; reflexivity.
             ++ do 2 eexists. split; reflexivity.
          -- do 2 eexists. split; reflexivity.
        * do 2 eexists. split; reflexivity.
      + do 2 eexists. split; reflexivity.
    - exists (Returned tt), []. split; [|reflexivity].
      unfold ret. now rewrite logged_nil. }
  destruct Hbody as (out & evs & Hm & Hcalls).
  destruct (tail_keeps_spawn_calls _ c _ _ _ _ _ _ Ha Hm) as (out' & evs' & Hrun & Hsame).
  exists out', evs'. split; [exact Hrun | congruence].
Qed.

(** C6: with an installer configured and an install command that exits
    with a code other than 0, [complete] prints the install-failure lines
    and ends the process with status 1; [runCommand] has been called once,
    for the install, and the final message is not printed. *)
Theorem install_failure_is_fatal (data : value) (c : chalk) (w w1 : world)
    (cwd : string) (a : value) (code : Z) :
  sortDependencies data w = (Returned tt, w1) ->
  project_dir data = Ok cwd ->
  get_prop data "autoInstall" = Ok a ->
  truthy a = true ->
  spawn a ["install"] (cwd_options cwd) = ExitEvent (Some code) ->
  code <> 0%Z ->
  let evs :=
    [starred_line (green c) "Installing project dependencies...";
     SpawnCall a ["install"] (cwd_options cwd);
     ConsoleLog [];
     ConsoleLog [LStr (" " ++ to_string a ++
                       " install FAILED... Possible temporary npm registry issues?")];
     ConsoleLog [LStr " Please try again later..."];
     ConsoleLog []] in
  complete data c w = (Exited 1, logged w1 evs) /\
  spawn_calls evs = [SpawnCall a ["install"] (cwd_options cwd)] /\
  (forall msg, final_message data c = Ok msg -> ~ In (ConsoleLog [LStr msg]) evs).
Proof.
  intros Hs Hd Ha Ht Hsp Hcode evs. split; [|split].
  - rewrite (complete_after_sort _ c _ _ _ _ Hs Hd Ha), Ht.
    unfold bind, try_catch.
    rewrite (installDependencies_run _ _ _ _ Ht), Hsp.
    cbn [resolved code_value truthy negb].
    apply Z.eqb_neq in Hcode. rewrite Hcode. reflexivity.
  - reflexivity.
  - intros msg Hmsg.
    destruct (final_message_total _ c _ _ Ha) as [rest Hrest].
    rewrite Hrest in Hmsg. injection Hmsg as <-.
    unfold evs, starred_line. simpl.
    intros [H | [H | [H | [H | [H | [H | []]]]]]]; discriminate.
Qed.

(** C9: when the lint-fix command exits with a code other than 0,
    [complete] prints the lint-failure lines, does not end the process, and
    goes on to print the final message. *)
Theorem lint_fix_failure_is_not_fatal (data : value) (c : chalk) (w w1 : world)
    (cwd : string) (a : value) (code : Z) :
  sortDependencies data w = (Returned tt, w1) ->
  project_dir data = Ok cwd ->
  get_prop data "autoInstall" = Ok a ->
  truthy a = true ->
  resolved (spawn a ["install"] (cwd_options cwd)) = true ->
  lint_fix_wanted data = Ok true ->
  spawn a (lint_fix_args a) (cwd_options cwd) = ExitEvent (Some code) ->
  code <> 0%Z ->
  exists msg,
    final_message data c = Ok msg /\
    complete data c w =
    (Returned tt,
     logged w1
       [starred_line (green c) "Installing project dependencies...";
        SpawnCall a ["install"] (cwd_options cwd);
        starred_line (green c) "Running eslint --fix to comply with chosen preset rules...";
        SpawnCall a (lint_fix_args a) (cwd_options cwd);
        ConsoleLog [];
        ConsoleLog [LStr (" " ++ to_string a ++ " lint FAILED...")];
        ConsoleLog [LStr " Please try again later..."];
        ConsoleLog [];
        ConsoleLog [LStr msg]]).
Proof.
  intros Hs Hd Ha Ht Hinst Hw Hsp Hcode.
  destruct (final_message_total _ c _ _ Ha) as [rest Hmsg].
  eexists. split; [exact Hmsg|].
  rewrite (complete_after_sort _ c _ _ _ _ Hs Hd Ha), Ht.
  unfold bind, try_catch.
  rewrite (installDependencies_run _ _ _ _ Ht).
  destruct (spawn a ["install"] (cwd_options cwd)) as [e | code0 |];
    try discriminate.
  rewrite Hinst.
  rewrite (runLintFix_run _ _ _ _ _ Ha), Hw, Hsp.
  cbn [resolved code_value truthy negb].
  apply Z.eqb_neq in Hcode. rewrite Hcode. cbn [negb].
  rewrite (printMessage_run _ _ _ _ Hmsg), !logged_logged.
  reflexivity.
Qed.

(** *** When the manifest is rewritten *)

Lemma sort_field_run (field : string) (sorted : bool) (pkg : value) :
  sort_field field (sorted, pkg) =
  match pkg with
  | VUndefined | VNull =>
      Throw (Error "TypeError" ("Cannot read properties of " ++ to_string pkg))
  | _ =>
      if truthy (prop pkg field)
      then rbind (sortObject (prop pkg field))
                 (fun o => Ok (true, set_prop pkg field o))
      else Ok (sorted, pkg)
  end.
Proof. destruct pkg; reflexivity. Qed.

Lemma truthy_sortObject (v : value) :
  truthy v = true -> exists r, sortObject v = Ok (VObj r).
Proof.
  intro H. unfold sortObject.
  destruct v; try discriminate; simpl; eauto.
Qed.

Lemma prop_set_prop_other (pkg : value) (k k' : string) (v : value) :
  k' <> k -> prop (set_prop pkg k v) k' = prop pkg k'.
Proof.
  intro Hne. destruct pkg; try reflexivity.
  simpl. now rewrite lookup_obj_set_other.
Qed.

Lemma sort_fields_run (pkg : value) (k : string) (v : value) :
  get_prop pkg k = Ok v ->
  sort_fields pkg =
  Ok (truthy (prop pkg "dependencies") || truthy (prop pkg "devDependencies"),
      sorted_manifest pkg).
Proof.
  intro Hd. unfold sort_fields, sorted_manifest.
  rewrite sort_field_run.
  destruct (truthy (prop pkg "dependencies")) eqn:H1.
  - destruct (truthy_sortObject _ H1) as [r Hr]. rewrite Hr.
    destruct pkg; try discriminate; cbn [rbind];
      rewrite sort_field_run; cbn [set_prop];
      match goal with
      | |- context [truthy ?x] => destruct (truthy x) eqn:H2
      end; try reflexivity;
      destruct (truthy_sortObject _ H2) as [r2 Hr2]; rewrite Hr2; reflexivity.
  - destruct pkg; try discriminate; cbn [rbind];
      rewrite sort_field_run;
      match goal with
      | |- context [truthy ?x] => destruct (truthy x) eqn:H2
      end; try reflexivity;
      destruct (truthy_sortObject _ H2) as [r2 Hr2]; rewrite Hr2; reflexivity.
Qed.

(** C3, as the code has it: [sortDependencies] rewrites the manifest file
    exactly when [dependencies] or [devDependencies] is there with a truthy
    value, whether its keys were in order or not.  When neither is, nothing
    is written and the world is left as it was; when one is, the file is
    overwritten with the two-space JSON text of the manifest with its
    sorted fields, followed by a newline. *)
Theorem sortDependencies_writes_iff_field (data : value) (w : world)
    (pkgFile content : string) (o : props) :
  manifest_path data = Ok pkgFile ->
  files w pkgFile = Some content ->
  JSON_parse content = Ok (VObj o) ->
  sortDependencies data w =
  (Returned tt,
   if truthy (prop (VObj o) "dependencies") ||
      truthy (prop (VObj o) "devDependencies")
   then
     let text := JSON_stringify2 (sorted_manifest (VObj o)) ++ nl in
     mkWorld (fs_write pkgFile text (files w))
             (trace w ++ [WriteFile pkgFile text])
   else w).
Proof.
  intros Hp Hf Hj.
  rewrite sortDependencies_run, Hp, Hf, Hj. cbn [rbind].
  rewrite (sort_fields_run (VObj o) "dependencies" _ eq_refl).
  destruct (truthy (prop (VObj o) "dependencies") ||
            truthy (prop (VObj o) "devDependencies"));
    reflexivity.
Qed.

End Orchestration.

(** ** [lintMsg] *)

(** What [lintMsg] tests: no installer, [data.lint] truthy and a recognized
    style.  It does not look at [data.preset]. *)
Lemma lintMsg_reads_lint (data : value) (k : string) (v : value) :
  get_prop data k = Ok v ->
  lintMsg data =
  Ok (if negb (truthy (prop data "autoInstall")) &&
         truthy (prop data "lint") && style_recognized data
      then lint_reminder
      else EmptyString).
Proof.
  intro H. pose proof (get_prop_defined _ _ _ H) as Hd.
  unfold lintMsg, style_recognized. rewrite !Hd.
  cbv beta iota delta [rbind].
  destruct (negb (truthy (prop data "autoInstall"))); [|reflexivity].
  destruct (truthy (prop data "lint")); [|reflexivity].
  fold lintStyles.
  destruct (indexOf_found lintStyles (prop data "lintConfig")); reflexivity.
Qed.

(** ** Runs on concrete inputs *)

(** C1, refuted as stated: with no manifest file the sort throws, and
    [complete] throws the same error without printing anything; no error
    line and no final message appear. *)
Lemma complete_sort_error_not_caught :
  fst (@sortDependencies (runtime killed) data_npm (start no_files)) = Thrown enoent /\
  fst (@complete (runtime killed) data_npm plain (start no_files)) = Thrown enoent /\
  trace (snd (@complete (runtime killed) data_npm plain (start no_files))) = [].
Proof. vm_compute. repeat split; reflexivity. Qed.

(** The run without a manifest file. *)
Lemma complete_rethrows_sort_error_witness :
  @complete (runtime killed) data_npm plain (start no_files) =
    (Thrown enoent, start no_files) /\
  start no_files = start no_files.
Proof.
  apply (@complete_rethrows_sort_error (runtime killed) data_npm plain
           (start no_files) (start no_files) enoent).
  vm_compute. reflexivity.
Defined.

(** C2, the input on which [lintMsg] and [runLintFix] disagree: no
    installer, [preset.lint] true and the style airbnb.  The condition of
    [runLintFix] holds, and [lintMsg], which reads [data.lint], returns the
    empty string. *)
Theorem lintMsg_misses_preset_lint :
  get_prop data_manual "autoInstall" = Ok (VBool false) /\
  lint_fix_wanted data_manual = Ok true /\
  lintMsg data_manual = Ok EmptyString.
Proof. vm_compute. repeat split; reflexivity. Qed.

(** C3, refuted as stated: the keys of [dependencies] are in order before
    the run, [sortObject] leaves the field as it is, and the file is written
    all the same, with other bytes than it had. *)
Lemma sortDependencies_rewrites_ordered_manifest :
  let deps := VObj [("a", VStr "1"); ("b", VStr "2")] in
  let w1 := snd (@sortDependencies (runtime killed) data_npm (project manifest_in_order)) in
  JSON_read manifest_in_order = Ok (VObj [("dependencies", deps)]) /\
  sortObject deps = Ok deps /\
  trace w1 = [WriteFile "package.json" manifest_in_order_pretty] /\
  files w1 "package.json" = Some manifest_in_order_pretty /\
  files w1 "package.json" <> files (project manifest_in_order) "package.json".
Proof. vm_compute. repeat split; try reflexivity. discriminate. Qed.

(** The run on the one-line manifest with its dependencies in order. *)
Lemma sortDependencies_writes_iff_field_witness :
  @sortDependencies (runtime killed) data_npm (project manifest_in_order) =
  (Returned tt,
   mkWorld (fs_write "package.json" manifest_in_order_pretty
              (files (project manifest_in_order)))
           [WriteFile "package.json" manifest_in_order_pretty]).
Proof.
  apply (@sortDependencies_writes_iff_field (runtime killed) data_npm
           (project manifest_in_order) "package.json" manifest_in_order
           [("dependencies", VObj [("a", VStr "1"); ("b", VStr "2")])]);
    vm_compute; reflexivity.
Defined.

(** C4, the input on which the code misses the order: the dependencies
    [10] and [9].  The written manifest lists 9 before 10, and 9 is not
    below 10 in the order of strings. *)
Theorem sortDependencies_numeric_keys :
  let w1 := snd (@sortDependencies (runtime killed) data_npm (project manifest_numeric)) in
  files w1 "package.json" = Some manifest_numeric_written /\
  JSON_read manifest_numeric_written =
    Ok (VObj [("dependencies", VObj [("9", VStr "2.0.0"); ("10", VStr "1.0.0")])]) /\
  String.ltb "9" "10" = false.
Proof. vm_compute. repeat split; reflexivity. Qed.

(** A key ["__proto__"] does not reach the sorted object at all. *)
Lemma sortObject_drops_proto :
  sortObject (VObj [("b", VStr "2"); ("__proto__", VStr "1"); ("a", VStr "3")]) =
  Ok (VObj [("a", VStr "3"); ("b", VStr "2")]).
Proof. vm_compute. reflexivity. Qed.

(** The npm project whose install command exits with 2. *)
Lemma install_failure_is_fatal_witness :
  let evs :=
    [starred_line (green plain) "Installing project dependencies...";
     SpawnCall (VStr "npm") ["install"] (cwd_options "/work");
     ConsoleLog [];
     ConsoleLog [LStr (" " ++ to_string (VStr "npm") ++
                       " install FAILED... Possible temporary npm registry issues?")];
     ConsoleLog [LStr " Please try again later..."];
     ConsoleLog []] in
  @complete (runtime install_exits_2) data_npm plain (project manifest_plain) =
    (Exited 1, logged (project manifest_plain) evs) /\
  spawn_calls evs = [SpawnCall (VStr "npm") ["install"] (cwd_options "/work")] /\
  (forall msg, final_message data_npm plain = Ok msg ->
               ~ In (ConsoleLog [LStr msg]) evs).
Proof.
  apply (@install_failure_is_fatal (runtime install_exits_2) data_npm plain
           (project manifest_plain) (project manifest_plain) "/work" (VStr "npm") 2%Z);
    try (vm_compute; reflexivity).
  discriminate.
Defined.

(** [npm install] exiting with 2. *)
Lemma runCommand_exit_code_witness :
  @runCommand (runtime install_exits_2) (VStr "npm") ["install"] [("cwd", VStr "/work")]
    (start no_files) =
  (Thrown (ThrownValue (VNum 2)),
   logged (start no_files)
     [SpawnCall (VStr "npm") ["install"]
        (@spawn_options (runtime install_exits_2) [("cwd", VStr "/work")])]).
Proof.
  apply (@runCommand_exit_code (runtime install_exits_2) (VStr "npm") ["install"]
           [("cwd", VStr "/work")] (start no_files) 2%Z).
  vm_compute. reflexivity.
Defined.

(** [npm install] ended by a signal. *)
Lemma runCommand_rejects_iff_truthy_witness :
  ((exists e, fst (@runCommand (runtime killed) (VStr "npm") ["install"]
                     [("cwd", VStr "/work")] (start no_files)) = Thrown e) <->
   truthy (code_value None) = true) /\
  (@None Z = None ->
   fst (@runCommand (runtime killed) (VStr "npm") ["install"]
          [("cwd", VStr "/work")] (start no_files)) = Returned tt).
Proof.
  apply (@runCommand_rejects_iff_truthy (runtime killed) (VStr "npm") ["install"]
           [("cwd", VStr "/work")] (start no_files) None).
  vm_compute. reflexivity.
Defined.

(** The npm project with the standard style: the install command and then
    the lint command. *)
Lemma lint_fix_runs_exactly_when_witness :
  exists out evs,
    @complete (runtime lint_exits_1) data_npm plain (project manifest_plain) =
      (out, logged (project manifest_plain) evs) /\
    spawn_calls evs =
      [SpawnCall (VStr "npm") ["install"] (cwd_options "/work");
       SpawnCall (VStr "npm") ["run"; "lint"; "--"; "--fix"] (cwd_options "/work")].
Proof.
  apply (@lint_fix_runs_exactly_when (runtime lint_exits_1) data_npm plain
           (project manifest_plain) (project manifest_plain) "/work" (VStr "npm"));
    vm_compute; reflexivity.
Defined.

(** The npm project whose lint command exits with 1. *)
Lemma lint_fix_failure_is_not_fatal_witness :
  exists msg,
    final_message data_npm plain = Ok msg /\
    @complete (runtime lint_exits_1) data_npm plain (project manifest_plain) =
    (Returned tt,
     logged (project manifest_plain)
       [starred_line (green plain) "Installing project dependencies...";
        SpawnCall (VStr "npm") ["install"] (cwd_options "/work");
        starred_line (green plain)
          "Running eslint --fix to comply with chosen preset rules...";
        SpawnCall (VStr "npm") (lint_fix_args (VStr "npm")) (cwd_options "/work");
        ConsoleLog [];
        ConsoleLog [LStr (" " ++ to_string (VStr "npm") ++ " lint FAILED...")];
        ConsoleLog [LStr " Please try again later..."];
        ConsoleLog [];
        ConsoleLog [LStr msg]]).
Proof.
  apply (@lint_fix_failure_is_not_fatal (runtime lint_exits_1) data_npm plain
           (project manifest_plain) (project manifest_plain) "/work" (VStr "npm") 1%Z);
    try (vm_compute; reflexivity).
  discriminate.
Defined.

(** * Further properties *)

(** ** [sortObject] on any object *)

(** X1: [sortObject] never alters a value: under every key other than
    ["__proto__"] the sorted object holds what the argument holds there,
    and it has no key the argument does not have. *)
Theorem sortObject_keeps_values (o r : props) (k : string) :
  sortObject (VObj o) = Ok (VObj r) ->
  k <> "__proto__" ->
  lookup k r = lookup k o.
Proof.
  intros E Hk.
  destruct (sortObject_spec _ E) as (ks & r' & Hks & Hr & _ & _ & Hval & Hnone).
  injection Hr as <-. simpl in Hks. injection Hks as <-. fold (keys o) in *.
  destruct (in_dec string_dec k (keys o)) as [Hin | Hnin].
  - rewrite (Hval _ Hin Hk). simpl.
    apply lookup_in_keys in Hin. destruct Hin as [v Hv]. now rewrite Hv.
  - rewrite (Hnone _ Hnin). symmetry. now apply lookup_not_in.
Qed.

(** X2: the own keys of what [sortObject] returns: the array indices come
    first, in ascending numeric order, then the other keys in ascending
    order of strings; no key occurs twice and ["__proto__"] is not among
    them. *)
Theorem sortObject_key_order (x : value) (r : props) :
  sortObject x = Ok (VObj r) ->
  StronglySorted key_lt (keys r) /\ NoDup (keys r) /\ ~ In "__proto__" (keys r).
Proof.
  intro E.
  destruct (sortObject_spec _ E) as (ks & r' & _ & Hr & [Hs Hp] & _).
  injection Hr as <-.
  split; [exact Hs|]. split; [now apply sorted_NoDup | exact Hp].
Qed.

(** X3: on an object whose keys are neither array indices nor
    ["__proto__"], [sortObject] returns the same mapping with its keys in
    strictly ascending order of strings. *)
Theorem sortObject_ascending_on_plain_keys (o r : props) :
  (forall k, In k (keys o) -> array_index k = None /\ k <> "__proto__") ->
  sortObject (VObj o) = Ok (VObj r) ->
  StronglySorted (fun x y => String.ltb x y = true) (keys r) /\
  (forall k, In k (keys r) <-> In k (keys o)) /\
  (forall k, lookup k r = lookup k o).
Proof.
  intros Hplain E.
  destruct (sortObject_plain_keys Hplain E) as [Hs Hl].
  split; [exact Hs|]. split; [|exact Hl].
  intro k. rewrite !lookup_in_keys, Hl. tauto.
Qed.

(** X4: the result of [sortObject] depends on the mapping only, not on the
    order in which the argument lists its properties. *)
Theorem sortObject_same_mapping (o1 o2 : props) :
  (forall k, lookup k o1 = lookup k o2) ->
  sortObject (VObj o1) = sortObject (VObj o2).
Proof.
  intro Hsame.
  destruct (sortObject_total o1) as [r1 E1].
  destruct (sortObject_total o2) as [r2 E2].
  rewrite E1, E2. do 2 f_equal.
  destruct (sortObject_spec _ E1) as (ks1 & r1' & Hks1 & Hr1 & [Hs1 _] & Hin1 & Hval1 & _).
  destruct (sortObject_spec _ E2) as (ks2 & r2' & Hks2 & Hr2 & [Hs2 _] & Hin2 & Hval2 & _).
  injection Hr1 as <-. injection Hr2 as <-.
  simpl in Hks1, Hks2. injection Hks1 as <-. injection Hks2 as <-.
  fold (keys o1) in *. fold (keys o2) in *.
  assert (Hkeys : forall k, In k (keys o1) <-> In k (keys o2)).
  { intro k. rewrite !lookup_in_keys, Hsame. tauto. }
  apply props_ext.
  - apply sorted_unique; [exact Hs1 | exact Hs2 |].
    intro k. rewrite Hin1, Hin2, Hkeys. tauto.
  - now apply sorted_NoDup.
  - intros k Hk. apply Hin1 in Hk. destruct Hk as [Hk Hp].
    rewrite (Hval1 _ Hk Hp), (Hval2 _ (proj1 (Hkeys k) Hk) Hp).
    simpl. now rewrite Hsame.
Qed.

(** X5: [sortObject] throws exactly on [undefined] and [null]; on every
    other value it returns an object. *)
Theorem sortObject_throws_iff (x : value) :
  ((exists e, sortObject x = Throw e) <-> x = VUndefined \/ x = VNull) /\
  (x <> VUndefined -> x <> VNull -> exists r, sortObject x = Ok (VObj r)).
Proof.
  unfold sortObject. split.
  - destruct x; simpl; split; eauto;
      try (intros [e H]; discriminate);
      intros [H | H]; discriminate.
  - intros H1 H2. destruct x; simpl; eauto; contradiction.
Qed.

(** ** The manifest that is written *)

Lemma update_same (k : string) (v : value) (o : props) :
  lookup k o = Some v -> update k v o = o.
Proof.
  induction o as [|[k' v'] o IH]; simpl; [reflexivity|].
  destruct (String.eqb_spec k' k) as [-> | Hne].
  - now intros [= ->].
  - intro H. now rewrite IH.
Qed.

Lemma truthy_prop_own (o : props) (field : string) :
  truthy (prop (VObj o) field) = true ->
  exists v, lookup field o = Some v /\ truthy v = true.
Proof.
  simpl. destruct (lookup field o) as [v|]; [eauto | discriminate].
Qed.

(** One of the two steps of [sorted_manifest]. *)
Lemma sort_in_step (field : string) (o : props) :
  exists o',
    sort_in field (VObj o) = VObj o' /\
    keys o' = keys o /\
    (forall k, k <> field -> lookup k o' = lookup k o) /\
    (truthy (prop (VObj o) field) = false -> o' = o) /\
    (truthy (prop (VObj o) field) = true ->
     exists r, sortObject (prop (VObj o) field) = Ok (VObj r) /\
               lookup field o' = Some (VObj r) /\ canonical r).
Proof.
  unfold sort_in.
  destruct (truthy (prop (VObj o) field)) eqn:Ht.
  - destruct (truthy_prop_own _ _ Ht) as (v & Hv & Htv).
    destruct (truthy_sortObject _ Ht) as [r Hr]. rewrite Hr.
    assert (Hin : In field (keys o)) by (apply lookup_in_keys; eauto).
    exists (obj_set o field (VObj r)). cbn [set_prop].
    split; [reflexivity|]. split; [|split; [|split]].
    + unfold obj_set. rewrite (proj2 (has_own_true o field) Hin).
      apply keys_update.
    + intros k Hk. now apply lookup_obj_set_other.
    + discriminate.
    + intros _. exists r. split; [reflexivity|]. split.
      * unfold obj_set. rewrite (proj2 (has_own_true o field) Hin).
        now apply lookup_update_same.
      * destruct (sortObject_spec _ Hr) as (ks & r' & _ & Hr' & Hc & _).
        injection Hr' as <-. exact Hc.
  - exists o. repeat split; auto. discriminate.
Qed.

(** A field that is falsy, or an object in canonical order, is left as it
    is, and the manifest with it. *)
Lemma sort_in_fixed (field : string) (o : props) :
  truthy (prop (VObj o) field) = false \/
  (exists r, lookup field o = Some (VObj r) /\ canonical r) ->
  sort_in field (VObj o) = VObj o.
Proof.
  unfold sort_in.
  intros [Hf | (r & Hl & Hc)].
  - now rewrite Hf.
  - simpl. rewrite Hl. cbn [truthy].
    change (rbind (Object_keys (VObj r)) _) with (sortObject (VObj r)).
    rewrite (sortObject_canonical_fixed Hc).
    unfold obj_set, has_own. rewrite Hl.
    now rewrite (update_same _ _ _ Hl).
Qed.

Lemma sorted_manifest_steps (pkg : value) :
  sorted_manifest pkg = sort_in "devDependencies" (sort_in "dependencies" pkg).
Proof. reflexivity. Qed.

(** [sortDependencies] changes the manifest in the two fields only:
    the sorted manifest lists the same top-level keys in the same order,
    every other field holds what it held, and each of the two fields, when
    truthy, holds its [sortObject]. *)
Lemma sorted_manifest_frame (o : props) :
  exists o',
    sorted_manifest (VObj o) = VObj o' /\
    keys o' = keys o /\
    (forall k, k <> "dependencies" -> k <> "devDependencies" ->
               lookup k o' = lookup k o) /\
    (forall field, field = "dependencies" \/ field = "devDependencies" ->
       if truthy (prop (VObj o) field)
       then sortObject (prop (VObj o) field) = Ok (prop (VObj o') field)
       else prop (VObj o') field = prop (VObj o) field).
Proof.
  rewrite sorted_manifest_steps.
  destruct (sort_in_step "dependencies" o) as (o1 & E1 & K1 & L1 & F1 & T1).
  rewrite E1.
  destruct (sort_in_step "devDependencies" o1) as (o2 & E2 & K2 & L2 & F2 & T2).
  rewrite E2. exists o2. split; [reflexivity|]. split; [congruence|].
  assert (Hdev : prop (VObj o1) "devDependencies" = prop (VObj o) "devDependencies").
  { simpl. rewrite L1; [reflexivity | discriminate]. }
  split.
  - intros k H1 H2. rewrite L2, L1; auto.
  - intros field [-> | ->].
    + destruct (truthy (prop (VObj o) "dependencies")) eqn:Ht.
      * destruct (T1 eq_refl) as (r & Hr & Hl & _). rewrite Hr.
        simpl. rewrite L2, Hl; [reflexivity | discriminate].
      * simpl. rewrite L2, (F1 eq_refl); [reflexivity | discriminate].
    + rewrite <- Hdev.
      destruct (truthy (prop (VObj o1) "devDependencies")) eqn:Ht.
      * destruct (T2 eq_refl) as (r & Hr & Hl & _). rewrite Hr.
        simpl. now rewrite Hl.
      * now rewrite (F2 eq_refl).
Qed.

(** Sorting a sorted manifest changes nothing. *)
Lemma sorted_manifest_idempotent (o : props) :
  sorted_manifest (sorted_manifest (VObj o)) = sorted_manifest (VObj o).
Proof.
  rewrite (sorted_manifest_steps (VObj o)).
  destruct (sort_in_step "dependencies" o) as (o1 & E1 & K1 & L1 & F1 & T1).
  rewrite E1.
  destruct (sort_in_step "devDependencies" o1) as (o2 & E2 & K2 & L2 & F2 & T2).
  rewrite E2, sorted_manifest_steps.
  assert (S1 : truthy (prop (VObj o2) "dependencies") = false \/
               exists r, lookup "dependencies" o2 = Some (VObj r) /\ canonical r).
  { assert (Hsame : lookup "dependencies" o2 = lookup "dependencies" o1)
      by (apply L2; discriminate).
    destruct (truthy (prop (VObj o) "dependencies")) eqn:Ht.
    - destruct (T1 eq_refl) as (r & _ & Hl & Hc). right. exists r.
      split; [congruence | exact Hc].
    - left. simpl. rewrite Hsame, (F1 eq_refl). exact Ht. }
  assert (S2 : truthy (prop (VObj o2) "devDependencies") = false \/
               exists r, lookup "devDependencies" o2 = Some (VObj r) /\ canonical r).
  { destruct (truthy (prop (VObj o1) "devDependencies")) eqn:Ht.
    - destruct (T2 eq_refl) as (r & _ & Hl & Hc). right. eauto.
    - left. now rewrite (F2 eq_refl). }
  rewrite (sort_in_fixed "dependencies" o2 S1).
  apply (sort_in_fixed "devDependencies" o2 S2).
Qed.

(** ** [sortDependencies] and the file system *)

Section SortingTheManifest.

Context {host : Host}.

Lemma sortDependencies_on_object (data : value) (w : world)
    (pkgFile content : string) (o : props) :
  manifest_path data = Ok pkgFile ->
  files w pkgFile = Some content ->
  JSON_parse content = Ok (VObj o) ->
  sortDependencies data w =
  (Returned tt,
   if truthy (prop (VObj o) "dependencies") ||
      truthy (prop (VObj o) "devDependencies")
   then
     mkWorld (fs_write pkgFile (JSON_stringify2 (sorted_manifest (VObj o)) ++ nl)
                (files w))
             (trace w ++ [WriteFile pkgFile
                            (JSON_stringify2 (sorted_manifest (VObj o)) ++ nl)])
   else w).
Proof.
  intros Hp Hf Hj.
  rewrite sortDependencies_run, Hp, Hf, Hj. cbn [rbind].
  rewrite (sort_fields_run (VObj o) "dependencies" _ eq_refl).
  destruct (truthy (prop (VObj o) "dependencies") ||
            truthy (prop (VObj o) "devDependencies"));
    reflexivity.
Qed.

(** X6: what [sortDependencies] writes is the manifest it read, changed in
    the two fields only: the same top-level keys in the same order, every
    other field with the value it had, and each of the two fields, when
    truthy, replaced by its [sortObject]. *)
Theorem sortDependencies_writes_sorted_fields (data : value) (w : world)
    (pkgFile content : string) (o : props) :
  manifest_path data = Ok pkgFile ->
  files w pkgFile = Some content ->
  JSON_parse content = Ok (VObj o) ->
  truthy (prop (VObj o) "dependencies") ||
  truthy (prop (VObj o) "devDependencies") = true ->
  exists o',
    files (snd (sortDependencies data w)) pkgFile =
      Some (JSON_stringify2 (VObj o') ++ nl) /\
    keys o' = keys o /\
    (forall k, k <> "dependencies" -> k <> "devDependencies" ->
               lookup k o' = lookup k o) /\
    (forall field, field = "dependencies" \/ field = "devDependencies" ->
       if truthy (prop (VObj o) field)
       then sortObject (prop (VObj o) field) = Ok (prop (VObj o') field)
       else prop (VObj o') field = prop (VObj o) field).
Proof.
  intros Hp Hf Hj Ht.
  rewrite (sortDependencies_on_object _ _ _ _ _ Hp Hf Hj), Ht.
  destruct (sorted_manifest_frame o) as (o' & E & K & L & F).
  exists o'. rewrite E. cbn [snd files]. unfold fs_write.
  rewrite String.eqb_refl. auto.
Qed.

(** X7: [sortDependencies] touches nothing but the manifest: it prints
    nothing and spawns nothing, and either leaves the world as it is or
    returns after one write, to the manifest path, with every other file
    as it was. *)
Theorem sortDependencies_touches_only_manifest (data : value) (w : world) :
  snd (sortDependencies data w) = w \/
  exists pkgFile text,
    manifest_path data = Ok pkgFile /\
    fst (sortDependencies data w) = Returned tt /\
    trace (snd (sortDependencies data w)) = (trace w ++ [WriteFile pkgFile text])%list /\
    files (snd (sortDependencies data w)) pkgFile = Some text /\
    (forall p, p <> pkgFile -> files (snd (sortDependencies data w)) p = files w p).
Proof.
  rewrite sortDependencies_run.
  destruct (manifest_path data) as [pkgFile | e]; [|now left].
  destruct (files w pkgFile) as [content|]; [|now left].
  destruct (rbind (JSON_parse content) sort_fields) as [[[|] pkg] | e];
    try (now left).
  right. exists pkgFile, (JSON_stringify2 pkg ++ nl).
  cbn [fst snd files trace]. unfold fs_write.
  rewrite String.eqb_refl. repeat split.
  intros p Hp. apply String.eqb_neq in Hp. now rewrite Hp.
Qed.


(** X9: [sortDependencies] is idempotent on the file: when the runtime
    reads back the text it printed, a second run returns and leaves the
    bytes of every file as the first run left them. *)
Theorem sortDependencies_twice (data : value) (w : world)
    (pkgFile content : string) (o : props) :
  manifest_path data = Ok pkgFile ->
  files w pkgFile = Some content ->
  JSON_parse content = Ok (VObj o) ->
  JSON_parse (JSON_stringify2 (sorted_manifest (VObj o)) ++ nl) =
    Ok (sorted_manifest (VObj o)) ->
  let w1 := snd (sortDependencies data w) in
  fst (sortDependencies data w1) = Returned tt /\
  (forall p, files (snd (sortDependencies data w1)) p = files w1 p).
Proof.
  intros Hp Hf Hj Hround w1. subst w1.
  rewrite (sortDependencies_on_object _ _ _ _ _ Hp Hf Hj).
  destruct (truthy (prop (VObj o) "dependencies") ||
            truthy (prop (VObj o) "devDependencies")) eqn:Ht; cbn [snd].
  - destruct (sorted_manifest_frame o) as (o' & E & K & L & F).
    assert (Hf1 : files (mkWorld (fs_write pkgFile
                     (JSON_stringify2 (sorted_manifest (VObj o)) ++ nl) (files w))
                     (trace w ++ [WriteFile pkgFile
                        (JSON_stringify2 (sorted_manifest (VObj o)) ++ nl)]))
                    pkgFile =
                  Some (JSON_stringify2 (sorted_manifest (VObj o)) ++ nl)).
    { cbn [files]. unfold fs_write. now rewrite String.eqb_refl. }
    rewrite E in Hround.
    rewrite E in Hf1.
    rewrite E.
    rewrite (sortDependencies_on_object _ _ _ _ _ Hp Hf1 Hround).
    rewrite <- E, sorted_manifest_idempotent, E.
    split; [reflexivity|].
    intro p.
    destruct (truthy (prop (VObj o') "dependencies") ||
              truthy (prop (VObj o') "devDependencies")); cbn [snd files];
      [|reflexivity].
    unfold fs_write. now destruct (p =? pkgFile).
  - rewrite (sortDependencies_on_object _ _ _ _ _ Hp Hf Hj), Ht.
    split; reflexivity.
Qed.

End SortingTheManifest.

(** ** The messages *)

(** X10: the steps of the final message, in order: the change of
    directory unless the project was generated in place; without an
    installer the install reminder and then, when [data.lint] is truthy and
    the style recognized, the lint reminder; and always [quasar dev] at the
    end.  With an installer there is no reminder. *)
Theorem final_message_steps (data : value) (c : chalk) (k : string) (v : value) :
  get_prop data k = Ok v ->
  final_message data c =
  Ok (nl ++ " " ++ green c "[*] Quasar Project initialization finished!" ++
      nl ++ nl ++ "To get started:" ++ nl ++ nl ++ "  " ++
      yellow c
        ((if truthy (prop data "inPlace") then EmptyString
          else "cd " ++ to_string (prop data "destDirName") ++ nl ++ "  ") ++
         (if truthy (prop data "autoInstall") then EmptyString
          else install_reminder ++
               (if truthy (prop data "lint") && style_recognized data
                then lint_reminder else EmptyString)) ++
         "quasar dev") ++
      closing_text).
Proof.
  intro H. pose proof (get_prop_defined _ _ _ H) as Hd.
  unfold final_message, installMsg, lintMsg, style_recognized.
  fold lintStyles. rewrite !Hd.
  cbv beta iota delta [rbind].
  destruct (truthy (prop data "inPlace"));
    destruct (truthy (prop data "autoInstall")); cbn [negb];
    cbv beta iota;
    try destruct (truthy (prop data "lint")); cbn [andb];
    try destruct (indexOf_found lintStyles (prop data "lintConfig"));
    cbv beta iota;
    reflexivity.
Qed.

(** X11: the lint reminder never comes without the install reminder. *)
Theorem lintMsg_needs_installMsg (data : value) (s : string) :
  lintMsg data = Ok s ->
  s <> EmptyString ->
  s = lint_reminder /\ installMsg data = Ok install_reminder.
Proof.
  unfold lintMsg, installMsg.
  destruct (get_prop data "autoInstall") as [a | e]; cbn [rbind]; [|discriminate].
  destruct (negb (truthy a)); [|intros [= <-] H; contradiction].
  destruct (get_prop data "lint") as [l | e]; cbn [rbind]; [|discriminate].
  destruct (truthy l); [|intros [= <-] H; contradiction].
  destruct (get_prop data "lintConfig") as [lc | e]; cbn [rbind]; [|discriminate].
  destruct (indexOf_found lintStyles lc); intros [= <-] H; [auto | contradiction].
Qed.

(** ** The stages one by one *)

Section Stages.

Context {host : Host}.

Lemma lookup_Object_assign (source target : props) (k : string) :
  NoDup (keys source) ->
  k <> "__proto__" ->
  lookup k (Object_assign target source) =
  match lookup k source with
  | Some v => Some v
  | None => lookup k target
  end.
Proof.
  unfold Object_assign. revert target.
  induction source as [|[k0 v0] source IH]; intros target Hnd Hk; simpl.
  - reflexivity.
  - inversion Hnd as [|? ? Hnot Hnd']; subst.
    rewrite (IH _ Hnd' Hk).
    destruct (String.eqb_spec k0 k) as [-> | Hne].
    + rewrite (lookup_not_in _ _ Hnot). now apply lookup_obj_set_same.
    + destruct (lookup k source); [reflexivity|].
      apply lookup_obj_set_other. congruence.
Qed.

(** X12: the options [runCommand] passes to [spawn]: what the caller gives
    overrides the defaults, and a default the caller does not give is
    kept: the working directory of the process, inherited streams and a
    shell. *)
Theorem spawn_options_merge (options : props) (k : string) :
  NoDup (keys options) ->
  k <> "__proto__" ->
  lookup k (spawn_options options) =
  match lookup k options with
  | Some v => Some v
  | None => lookup k (default_options process_cwd)
  end.
Proof.
  intros Hnd Hk. unfold spawn_options. now apply lookup_Object_assign.
Qed.





(** *** [complete] after the sort *)

Lemma sort_outcome (data : value) (w : world) :
  (exists w1, sortDependencies data w = (Returned tt, w1)) \/
  (exists e, sortDependencies data w = (Thrown e, w)).
Proof.
  rewrite sortDependencies_run.
  destruct (manifest_path data) as [pkgFile | e]; [|eauto].
  destruct (files w pkgFile) as [content|]; [|eauto].
  destruct (rbind (JSON_parse content) sort_fields) as [[[|] pkg] | e]; eauto.
Qed.

Lemma sort_returned_paths (data : value) (w w1 : world) :
  sortDependencies data w = (Returned tt, w1) ->
  exists cwd a, project_dir data = Ok cwd /\ get_prop data "autoInstall" = Ok a.
Proof.
  rewrite sortDependencies_run. unfold manifest_path, project_dir.
  destruct (target_dir data) as [dir | e] eqn:Hdir; cbn [rbind]; [|discriminate].
  assert (Hdata : exists v, get_prop data "inPlace" = Ok v).
  { unfold target_dir in Hdir.
    destruct (get_prop data "inPlace") as [v | e]; [eauto | discriminate]. }
  destruct Hdata as [v Hv].
  rewrite (get_prop_defined _ _ _ Hv "autoInstall").
  unfold path_join_values.
  destruct dir; cbn [path_join_values strings_of rbind]; try discriminate.
  eauto.
Qed.

Lemma tail_run (data : value) (c : chalk) (w1 : world) (m : M unit)
    (out : outcome unit) (evs : list event) (msg : string) :
  final_message data c = Ok msg ->
  m w1 = (out, logged w1 evs) ->
  bind (try_catch m (fun e => console_log [LStr (red c "Error:"); LExn e]))
       (fun _ => printMessage data c) w1 =
  match out with
  | Returned _ => (Returned tt, logged w1 (evs ++ [ConsoleLog [LStr msg]]))
  | Thrown e =>
      (Returned tt,
       logged w1 ((evs ++ [ConsoleLog [LStr (red c "Error:"); LExn e]]) ++
                  [ConsoleLog [LStr msg]]))
  | Exited s => (Exited s, logged w1 evs)
  | Pending => (Pending, logged w1 evs)
  end.
Proof.
  intros Hmsg Hm. unfold bind, try_catch. rewrite Hm.
  destruct out as [[] | e | s |]; try reflexivity.
  - now rewrite (printMessage_run _ _ _ _ Hmsg), logged_logged.
  - unfold console_log. rewrite emit_logged, logged_logged.
    now rewrite (printMessage_run _ _ _ _ Hmsg), logged_logged.
Qed.

(** The body of the [try] block of [complete]. *)
Lemma try_body_shape (data : value) (c : chalk) (w1 : world) (cwd : string) (a : value) :
  get_prop data "autoInstall" = Ok a ->
  exists out evs,
    (if truthy a
     then bind (installDependencies cwd a (green c))
               (fun _ => runLintFix cwd data (green c))
     else ret tt) w1 = (out, logged w1 evs) /\
    no_write evs = true /\
    (forall s, out = Exited s ->
       s = 1%Z /\ truthy a = true /\
       resolved (spawn a ["install"] (cwd_options cwd)) = false).
Proof.
  intro Ha. destruct (truthy a) eqn:Ht.
  - unfold bind. rewrite (installDependencies_run _ _ _ _ Ht).
    destruct (spawn a ["install"] (cwd_options cwd)) as [e | code |] eqn:Hsp.
    + do 2 eexists. split; [reflexivity|]. split; [reflexivity|].
      intros s [= <-]. auto.
    + cbn [resolved]. destruct (negb (truthy (code_value code))) eqn:Hc.
      * rewrite (runLintFix_run _ _ _ _ _ Ha).
        destruct (lint_fix_wanted data) as [[|] | e];
          [ destruct (spawn a (lint_fix_args a) (cwd_options cwd)) as [e | code' |];
            cbn [resolved];
            [| destruct (negb (truthy (code_value code'))) |] | |];
          rewrite ?logged_logged; do 2 eexists;
          (split; [reflexivity|]); (split; [reflexivity|]);
          intros s; discriminate.
      * do 2 eexists. split; [reflexivity|]. split; [reflexivity|].
        intros s [= <-]. auto.
    + do 2 eexists. split; [reflexivity|]. split; [reflexivity|].
      intros s; discriminate.
  - exists (Returned tt), []. unfold ret. rewrite logged_nil.
    split; [reflexivity|]. split; [reflexivity|]. intros s; discriminate.
Qed.

Lemma no_write_app (l1 l2 : list event) :
  no_write (l1 ++ l2) = no_write l1 && no_write l2.
Proof. apply forallb_app. Qed.

(** The shape of every run of [complete] in which the sort returned. *)
Lemma complete_shape (data : value) (c : chalk) (w w1 : world) :
  sortDependencies data w = (Returned tt, w1) ->
  exists cwd a out evs msg,
    project_dir data = Ok cwd /\
    get_prop data "autoInstall" = Ok a /\
    final_message data c = Ok msg /\
    complete data c w = (out, logged w1 evs) /\
    no_write evs = true /\
    (forall e, out <> Thrown e) /\
    (forall s, out = Exited s ->
       s = 1%Z /\ truthy a = true /\
       resolved (spawn a ["install"] (cwd_options cwd)) = false) /\
    (out = Returned tt -> exists pre, evs = (pre ++ [ConsoleLog [LStr msg]])%list).
Proof.
  intro Hs.
  destruct (sort_returned_paths _ _ _ Hs) as (cwd & a & Hd & Ha).
  destruct (final_message_total _ c _ _ Ha) as [rest Hmsg].
  destruct (try_body_shape data c w1 cwd a Ha) as (out & evs & Hbody & Hnw & Hex).
  exists cwd, a.
  rewrite (complete_after_sort _ c _ _ _ _ Hs Hd Ha).
  rewrite (tail_run _ _ _ _ _ _ _ Hmsg Hbody).
  destruct out as [[] | e | s |].
  - do 3 eexists. split; [exact Hd|]. split; [exact Ha|].
    split; [exact Hmsg|]. split; [reflexivity|].
    split; [now rewrite no_write_app, Hnw|].
    split; [discriminate|]. split; [discriminate|]. eauto.
  - do 3 eexists. split; [exact Hd|]. split; [exact Ha|].
    split; [exact Hmsg|]. split; [reflexivity|].
    split; [now rewrite !no_write_app, Hnw|].
    split; [discriminate|]. split; [discriminate|]. eauto.
  - do 3 eexists. split; [exact Hd|]. split; [exact Ha|].
    split; [exact Hmsg|]. split; [reflexivity|].
    split; [exact Hnw|].
    split; [discriminate|]. split; [exact Hex | discriminate].
  - do 3 eexists. split; [exact Hd|]. split; [exact Ha|].
    split; [exact Hmsg|]. split; [reflexivity|].
    split; [exact Hnw|].
    split; [discriminate|]. split; discriminate.
Qed.

(** X15: [complete] rejects exactly when the sort throws: past the sort,
    every error is caught, by the stage it comes from or by the [catch] of
    [complete]. *)
Theorem complete_rejects_iff_sort_throws (data : value) (c : chalk) (w : world) :
  (exists e, fst (complete data c w) = Thrown e) <->
  (exists e, fst (sortDependencies data w) = Thrown e).
Proof.
  destruct (sort_outcome data w) as [[w1 Hs] | [e Hs]].
  - destruct (complete_shape data c w w1 Hs)
      as (cwd & a & out & evs & msg & _ & _ & _ & Hc & _ & Hnt & _).
    rewrite Hc, Hs. cbn [fst]. split; intros [e H].
    + exfalso. exact (Hnt e H).
    + discriminate.
  - assert (Hc : complete data c w = (Thrown e, w)).
    { unfold complete, bind at 1. now rewrite Hs. }
    rewrite Hc, Hs. cbn [fst]. split; eauto.
Qed.



(** X18: whenever [complete] returns, the last thing it did was to print
    the final message. *)
Theorem complete_returns_after_final_message (data : value) (c : chalk) (w : world) :
  fst (complete data c w) = Returned tt ->
  exists pre msg,
    final_message data c = Ok msg /\
    trace (snd (complete data c w)) = (pre ++ [ConsoleLog [LStr msg]])%list.
Proof.
  destruct (sort_outcome data w) as [[w1 Hs] | [e Hs]].
  - destruct (complete_shape data c w w1 Hs)
      as (cwd & a & out & evs & msg & _ & _ & Hmsg & Hc & _ & _ & _ & Hret).
    rewrite Hc. cbn [fst snd]. intro H.
    destruct (Hret H) as [pre ->].
    exists (trace w1 ++ pre)%list, msg. split; [exact Hmsg|].
    unfold logged. cbn [trace]. now rewrite app_assoc.
  - assert (Hc : complete data c w = (Thrown e, w)).
    { unfold complete, bind at 1. now rewrite Hs. }
    rewrite Hc. discriminate.
Qed.

(** *** Scenarios *)

(** X19: without an installer no command is run: after the sort,
    [complete] only prints the final message and returns. *)
Theorem complete_without_installer (data : value) (c : chalk) (w w1 : world)
    (a : value) :
  sortDependencies data w = (Returned tt, w1) ->
  get_prop data "autoInstall" = Ok a ->
  truthy a = false ->
  exists msg,
    final_message data c = Ok msg /\
    complete data c w = (Returned tt, logged w1 [ConsoleLog [LStr msg]]).
Proof.
  intros Hs Ha Ht.
  destruct (sort_returned_paths _ _ _ Hs) as (cwd & a' & Hd & Ha').
  destruct (final_message_total _ c _ _ Ha) as [rest Hmsg].
  eexists. split; [exact Hmsg|].
  rewrite (complete_after_sort _ c _ _ _ _ Hs Hd Ha), Ht.
  rewrite (tail_run data c w1 (ret tt) (Returned tt) [] _ Hmsg).
  - reflexivity.
  - unfold ret. now rewrite logged_nil.
Qed.

(** X20: when the install command and the lint command both succeed,
    [complete] runs the two commands in this order, prints no failure
    line, prints the final message and returns. *)
Theorem complete_all_succeed (data : value) (c : chalk) (w w1 : world)
    (cwd : string) (a : value) :
  sortDependencies data w = (Returned tt, w1) ->
  project_dir data = Ok cwd ->
  get_prop data "autoInstall" = Ok a ->
  truthy a = true ->
  resolved (spawn a ["install"] (cwd_options cwd)) = true ->
  lint_fix_wanted data = Ok true ->
  resolved (spawn a (lint_fix_args a) (cwd_options cwd)) = true ->
  exists msg,
    final_message data c = Ok msg /\
    complete data c w =
    (Returned tt,
     logged w1
       [starred_line (green c) "Installing project dependencies...";
        SpawnCall a ["install"] (cwd_options cwd);
        starred_line (green c) "Running eslint --fix to comply with chosen preset rules...";
        SpawnCall a (lint_fix_args a) (cwd_options cwd);
        ConsoleLog [LStr msg]]).
Proof.
  intros Hs Hd Ha Ht Hinst Hw Hlint.
  destruct (final_message_total _ c _ _ Ha) as [rest Hmsg].
  eexists. split; [exact Hmsg|].
  rewrite (complete_after_sort _ c _ _ _ _ Hs Hd Ha), Ht.
  erewrite (tail_run data c w1 _ (Returned tt)
              [starred_line (green c) "Installing project dependencies...";
               SpawnCall a ["install"] (cwd_options cwd);
               starred_line (green c)
                 "Running eslint --fix to comply with chosen preset rules...";
               SpawnCall a (lint_fix_args a) (cwd_options cwd)]
              _ Hmsg); [reflexivity|].
  unfold bind. rewrite (installDependencies_run _ _ _ _ Ht).
  destruct (spawn a ["install"] (cwd_options cwd)) as [e | code0 |];
    try discriminate.
  rewrite Hinst, (runLintFix_run _ _ _ _ _ Ha), Hw.
  destruct (spawn a (lint_fix_args a) (cwd_options cwd)) as [e | code1 |];
    try discriminate.
  rewrite Hlint, logged_logged. reflexivity.
Qed.

(** X21: when linting is not selected or the style is not recognized, a
    successful install is followed by the final message at once. *)
Theorem complete_install_only (data : value) (c : chalk) (w w1 : world)
    (cwd : string) (a : value) :
  sortDependencies data w = (Returned tt, w1) ->
  project_dir data = Ok cwd ->
  get_prop data "autoInstall" = Ok a ->
  truthy a = true ->
  resolved (spawn a ["install"] (cwd_options cwd)) = true ->
  lint_fix_wanted data = Ok false ->
  exists msg,
    final_message data c = Ok msg /\
    complete data c w =
    (Returned tt,
     logged w1
       [starred_line (green c) "Installing project dependencies...";
        SpawnCall a ["install"] (cwd_options cwd);
        ConsoleLog [LStr msg]]).
Proof.
  intros Hs Hd Ha Ht Hinst Hw.
  destruct (final_message_total _ c _ _ Ha) as [rest Hmsg].
  eexists. split; [exact Hmsg|].
  rewrite (complete_after_sort _ c _ _ _ _ Hs Hd Ha), Ht.
  erewrite (tail_run data c w1 _ (Returned tt)
              [starred_line (green c) "Installing project dependencies...";
               SpawnCall a ["install"] (cwd_options cwd)]
              _ Hmsg); [reflexivity|].
  unfold bind. rewrite (installDependencies_run _ _ _ _ Ht).
  destruct (spawn a ["install"] (cwd_options cwd)) as [e | code0 |];
    try discriminate.
  rewrite Hinst, (runLintFix_run _ _ _ _ _ Ha), Hw. reflexivity.
Qed.

(** X22: a configuration without [preset]: after a successful install,
    reading [data.preset.lint] throws a TypeError, which the [catch] of
    [complete] prints after [Error:]; no lint command is run, and the
    final message is printed all the same. *)
Theorem complete_without_preset (data : value) (c : chalk) (w w1 : world)
    (cwd : string) (a : value) :
  sortDependencies data w = (Returned tt, w1) ->
  project_dir data = Ok cwd ->
  get_prop data "autoInstall" = Ok a ->
  truthy a = true ->
  resolved (spawn a ["install"] (cwd_options cwd)) = true ->
  prop data "preset" = VUndefined ->
  exists msg,
    final_message data c = Ok msg /\
    complete data c w =
    (Returned tt,
     logged w1
       [starred_line (green c) "Installing project dependencies...";
        SpawnCall a ["install"] (cwd_options cwd);
        ConsoleLog [LStr (red c "Error:");
                    LExn (Error "TypeError" "Cannot read properties of undefined")];
        ConsoleLog [LStr msg]]).
Proof.
  intros Hs Hd Ha Ht Hinst Hp.
  destruct (final_message_total _ c _ _ Ha) as [rest Hmsg].
  eexists. split; [exact Hmsg|].
  rewrite (complete_after_sort _ c _ _ _ _ Hs Hd Ha), Ht.
  erewrite (tail_run data c w1 _
              (Thrown (Error "TypeError" "Cannot read properties of undefined"))
              [starred_line (green c) "Installing project dependencies...";
               SpawnCall a ["install"] (cwd_options cwd)]
              _ Hmsg); [reflexivity|].
  unfold bind. rewrite (installDependencies_run _ _ _ _ Ht).
  destruct (spawn a ["install"] (cwd_options cwd)) as [e | code0 |];
    try discriminate.
  rewrite Hinst, (runLintFix_run _ _ _ _ _ Ha), lint_fix_wanted_run, Hp.
  destruct data; try discriminate; reflexivity.
Qed.

(** X23: there is no timeout: when the install command never exits,
    [complete] never settles, and nothing is printed after the line that
    announces the install. *)
Theorem complete_install_never_exits (data : value) (c : chalk) (w w1 : world)
    (cwd : string) (a : value) :
  sortDependencies data w = (Returned tt, w1) ->
  project_dir data = Ok cwd ->
  get_prop data "autoInstall" = Ok a ->
  truthy a = true ->
  spawn a ["install"] (cwd_options cwd) = NoExitEvent ->
  complete data c w =
  (Pending,
   logged w1
     [starred_line (green c) "Installing project dependencies...";
      SpawnCall a ["install"] (cwd_options cwd)]).
Proof.
  intros Hs Hd Ha Ht Hsp.
  rewrite (complete_after_sort _ c _ _ _ _ Hs Hd Ha), Ht.
  unfold bind, try_catch.
  now rewrite (installDependencies_run _ _ _ _ Ht), Hsp.
Qed.

End Stages.

(** ** Further runs on concrete inputs *)

(** The dependencies [vue] and [axios]. *)
Lemma sortObject_keeps_values_witness :
  lookup "vue" [("axios", VStr "1"); ("vue", VStr "2")] = lookup "vue" unordered_deps.
Proof.
  apply (sortObject_keeps_values unordered_deps
           [("axios", VStr "1"); ("vue", VStr "2")] "vue").
  - vm_compute. reflexivity.
  - discriminate.
Defined.

Lemma sortObject_key_order_witness :
  StronglySorted key_lt (keys [("axios", VStr "1"); ("vue", VStr "2")]) /\
  NoDup (keys [("axios", VStr "1"); ("vue", VStr "2")]) /\
  ~ In "__proto__" (keys [("axios", VStr "1"); ("vue", VStr "2")]).
Proof.
  apply (sortObject_key_order (VObj unordered_deps)
           [("axios", VStr "1"); ("vue", VStr "2")]).
  vm_compute. reflexivity.
Defined.

Lemma sortObject_ascending_on_plain_keys_witness :
  StronglySorted (fun x y => String.ltb x y = true)
    (keys [("axios", VStr "1"); ("vue", VStr "2")]) /\
  (forall k, In k (keys [("axios", VStr "1"); ("vue", VStr "2")]) <->
             In k (keys unordered_deps)) /\
  (forall k, lookup k [("axios", VStr "1"); ("vue", VStr "2")] =
             lookup k unordered_deps).
Proof.
  apply (sortObject_ascending_on_plain_keys unordered_deps
           [("axios", VStr "1"); ("vue", VStr "2")]).
  - intros k [<- | [<- | []]]; split; try discriminate; vm_compute; reflexivity.
  - vm_compute. reflexivity.
Defined.

(** The same two dependencies, listed in either order. *)
Lemma sortObject_same_mapping_witness :
  sortObject (VObj unordered_deps) =
  sortObject (VObj [("axios", VStr "1"); ("vue", VStr "2")]).
Proof.
  apply (sortObject_same_mapping unordered_deps
           [("axios", VStr "1"); ("vue", VStr "2")]).
  intro k. unfold unordered_deps. cbn [lookup].
  destruct ("vue" =? k) eqn:E1, ("axios" =? k) eqn:E2; try reflexivity.
  apply String.eqb_eq in E1, E2. subst k. discriminate.
Defined.

(** The project in the directory [app], with its manifest out of order. *)
Lemma sortDependencies_writes_sorted_fields_witness :
  exists o',
    files (snd (@sortDependencies (runtime killed) data_subdir
                  (start (one_file "app/package.json" manifest_unordered))))
          "app/package.json" =
      Some (JSON_print (VObj o') ++ nl) /\
    keys o' = keys unordered_pkg /\
    (forall k, k <> "dependencies" -> k <> "devDependencies" ->
               lookup k o' = lookup k unordered_pkg) /\
    (forall field, field = "dependencies" \/ field = "devDependencies" ->
       if truthy (prop (VObj unordered_pkg) field)
       then sortObject (prop (VObj unordered_pkg) field) = Ok (prop (VObj o') field)
       else prop (VObj o') field = prop (VObj unordered_pkg) field).
Proof.
  apply (@sortDependencies_writes_sorted_fields (runtime killed) data_subdir
           (start (one_file "app/package.json" manifest_unordered))
           "app/package.json" manifest_unordered unordered_pkg);
    vm_compute; reflexivity.
Defined.

Lemma sortDependencies_twice_witness :
  let w1 := snd (@sortDependencies (runtime killed) data_subdir
                   (start (one_file "app/package.json" manifest_unordered))) in
  fst (@sortDependencies (runtime killed) data_subdir w1) = Returned tt /\
  (forall p, files (snd (@sortDependencies (runtime killed) data_subdir w1)) p =
             files w1 p).
Proof.
  apply (@sortDependencies_twice (runtime killed) data_subdir
           (start (one_file "app/package.json" manifest_unordered))
           "app/package.json" manifest_unordered unordered_pkg);
    vm_compute; reflexivity.
Defined.

Lemma final_message_steps_witness :
  final_message data_subdir plain =
  Ok (nl ++ " " ++ green plain "[*] Quasar Project initialization finished!" ++
      nl ++ nl ++ "To get started:" ++ nl ++ nl ++ "  " ++
      yellow plain
        ((if truthy (prop data_subdir "inPlace") then EmptyString
          else "cd " ++ to_string (prop data_subdir "destDirName") ++ nl ++ "  ") ++
         (if truthy (prop data_subdir "autoInstall") then EmptyString
          else install_reminder ++
               (if truthy (prop data_subdir "lint") && style_recognized data_subdir
                then lint_reminder else EmptyString)) ++
         "quasar dev") ++
      closing_text).
Proof.
  apply (final_message_steps data_subdir plain "inPlace" (VBool false)).
  reflexivity.
Defined.

Lemma lintMsg_needs_installMsg_witness :
  lint_reminder = lint_reminder /\ installMsg data_subdir = Ok install_reminder.
Proof.
  apply (lintMsg_needs_installMsg data_subdir lint_reminder).
  - vm_compute. reflexivity.
  - discriminate.
Defined.

(** The options of the two callers: only [cwd] is given. *)
Lemma spawn_options_merge_witness :
  lookup "stdio" (@spawn_options (runtime killed) [("cwd", VStr "/work/app")]) =
  match lookup "stdio" [("cwd", VStr "/work/app")] with
  | Some v => Some v
  | None => lookup "stdio" (default_options (@process_cwd (runtime killed)))
  end.
Proof.
  apply (@spawn_options_merge (runtime killed) [("cwd", VStr "/work/app")] "stdio").
  - repeat constructor. simpl. tauto.
  - discriminate.
Defined.



Lemma complete_returns_after_final_message_witness :
  exists pre msg,
    final_message data_npm plain = Ok msg /\
    trace (snd (@complete (runtime all_succeed) data_npm plain
                  (project manifest_plain))) =
      (pre ++ [ConsoleLog [LStr msg]])%list.
Proof.
  apply (@complete_returns_after_final_message (runtime all_succeed) data_npm plain
           (project manifest_plain)).
  vm_compute. reflexivity.
Defined.

Lemma complete_without_installer_witness :
  let w0 := start (one_file "app/package.json" manifest_unordered) in
  exists msg,
    final_message data_subdir plain = Ok msg /\
    @complete (runtime killed) data_subdir plain w0 =
    (Returned tt,
     logged (snd (@sortDependencies (runtime killed) data_subdir w0))
            [ConsoleLog [LStr msg]]).
Proof.
  apply (@complete_without_installer (runtime killed) data_subdir plain
           (start (one_file "app/package.json" manifest_unordered))
           (snd (@sortDependencies (runtime killed) data_subdir
                   (start (one_file "app/package.json" manifest_unordered))))
           (VBool false));
    vm_compute; reflexivity.
Defined.

Lemma complete_all_succeed_witness :
  exists msg,
    final_message data_npm plain = Ok msg /\
    @complete (runtime all_succeed) data_npm plain (project manifest_plain) =
    (Returned tt,
     logged (project manifest_plain)
       [starred_line (green plain) "Installing project dependencies...";
        SpawnCall (VStr "npm") ["install"] (cwd_options "/work");
        starred_line (green plain)
          "Running eslint --fix to comply with chosen preset rules...";
        SpawnCall (VStr "npm") (lint_fix_args (VStr "npm")) (cwd_options "/work");
        ConsoleLog [LStr msg]]).
Proof.
  apply (@complete_all_succeed (runtime all_succeed) data_npm plain
           (project manifest_plain) (project manifest_plain) "/work" (VStr "npm"));
    vm_compute; reflexivity.
Defined.

Lemma complete_install_only_witness :
  exists msg,
    final_message data_no_lint plain = Ok msg /\
    @complete (runtime all_succeed) data_no_lint plain (project manifest_plain) =
    (Returned tt,
     logged (project manifest_plain)
       [starred_line (green plain) "Installing project dependencies...";
        SpawnCall (VStr "yarn") ["install"] (cwd_options "/work");
        ConsoleLog [LStr msg]]).
Proof.
  apply (@complete_install_only (runtime all_succeed) data_no_lint plain
           (project manifest_plain) (project manifest_plain) "/work" (VStr "yarn"));
    vm_compute; reflexivity.
Defined.

Lemma complete_without_preset_witness :
  exists msg,
    final_message data_no_preset plain = Ok msg /\
    @complete (runtime all_succeed) data_no_preset plain (project manifest_plain) =
    (Returned tt,
     logged (project manifest_plain)
       [starred_line (green plain) "Installing project dependencies...";
        SpawnCall (VStr "yarn") ["install"] (cwd_options "/work");
        ConsoleLog [LStr (red plain "Error:");
                    LExn (Error "TypeError" "Cannot read properties of undefined")];
        ConsoleLog [LStr msg]]).
Proof.
  apply (@complete_without_preset (runtime all_succeed) data_no_preset plain
           (project manifest_plain) (project manifest_plain) "/work" (VStr "yarn"));
    vm_compute; reflexivity.
Defined.

Lemma complete_install_never_exits_witness :
  @complete (runtime never_exits) data_npm plain (project manifest_plain) =
  (Pending,
   logged (project manifest_plain)
     [starred_line (green plain) "Installing project dependencies...";
      SpawnCall (VStr "npm") ["install"] (cwd_options "/work")]).
Proof.
  apply (@complete_install_never_exits (runtime never_exits) data_npm plain
           (project manifest_plain) (project manifest_plain) "/work" (VStr "npm"));
    vm_compute; reflexivity.
Defined.
